(** * Health_force_test: the AWS batch of [aws/process.py]

    A shallow embedding of [ProcessPatients] (module [aws/process.py]) and of
    the collaborators it drives, followed by the properties of the
    per-patient workflow and of the batch loop.

    Python values are modelled by [pyval], dictionaries by [gmap string _],
    exceptions by [exn], and every method of [ProcessPatients] by a function
    in the monad [M], which threads the observable [world] (the calls made on
    the shared webdriver, the rule phases run, the records handed to
    [Response]) and stops at the first exception raised. *)

From Stdlib Require Import ZArith String Ascii List Bool Lia.
From stdpp Require Import base option list gmap strings.

Import ListNotations.
Local Open Scope Z_scope.
Local Open Scope string_scope.
Local Open Scope list_scope.

(** ** Python values *)

(** A [datetime] as far as the workflow looks at it: a calendar date. *)
Record datetime := mk_datetime { dt_year : Z; dt_month : Z; dt_day : Z }.

(** The values a field of [patient_data] can hold: what the CSV columns are
    converted to (str, list, bool, datetime), the derived age and status
    (int), and [None]. *)
Inductive pyval :=
| VNone
| VBool (b : bool)
| VInt (z : Z)
| VStr (s : string)
| VList (l : list string)
| VDate (d : datetime).

#[global] Instance datetime_eq_dec : EqDecision datetime.
Proof. solve_decision. Defined.

#[global] Instance pyval_eq_dec : EqDecision pyval.
Proof. solve_decision. Defined.

(** A Python [dict] with string keys. *)
Abbreviation pydict := (gmap string pyval).

(** [sep.join(l)]. *)
Fixpoint join (sep : string) (l : list string) : string :=
  match l with
  | [] => ""
  | [s] => s
  | s :: rest => s ++ sep ++ join sep rest
  end.

(** [str.lower()] on ASCII letters. *)
Definition lower_ascii (c : ascii) : ascii :=
  let n := N_of_ascii c in
  if ((65 <=? n) && (n <=? 90))%N then ascii_of_N (n + 32) else c.

Fixpoint lower (s : string) : string :=
  match s with
  | EmptyString => EmptyString
  | String c rest => String (lower_ascii c) (lower rest)
  end.

(** Iterating over a [str] yields its one-character substrings. *)
Fixpoint chars (s : string) : list string :=
  match s with
  | EmptyString => []
  | String c rest => String c EmptyString :: chars rest
  end.

(** ** Exceptions and outcomes *)

Inductive exn :=
| ValueError (msg : string)
| KeyError (key : string)
| NameError (name : string)
| IndexError
| TypeError
| FileNotFoundError
| RuleEngineError
| PortalError (msg : string).

Inductive outcome (A : Type) :=
| Ok (a : A)
| Raise (e : exn).
Arguments Ok {A} a.
Arguments Raise {A} e.

Definition is_ok {A} (o : outcome A) : bool :=
  match o with Ok _ => true | Raise _ => false end.

(** ** The shared webdriver and what is observed of a run *)

(** A [WebElement]: how it was located and its [text]. *)
Record element := mk_element { el_by : string; el_value : string; el_text : string }.

(** selenium's [By] constants. *)
Module By.
Definition ID := "id".
Definition CSS_SELECTOR := "css selector".
Definition CLASS_NAME := "class name".
Definition XPATH := "xpath".
End By.

(** One call on the shared [WebDriver] session (or through it, for
    [fetch_telerik_pdf], which receives the webdriver). *)
Inductive call :=
| Get (url : string)
| GetSelenium (url : string)
| Post (url : string) (payload : list (string * pyval))
| FindElement (by_ value : string)
| FindElements (by_ value : string)
| SendKeys (e : element) (keys : pyval)
| ClickJs (e : element)
| Click (e : element)
| FetchTelerikPdf (pic : pyval)
| Quit.

(** The rule phases the workflow runs, with their keys in the YAML file. *)
Inductive phase := deal_breakers | patient_data_rules | pdf_analysis | webportal.

Definition phase_key (p : phase) : string :=
  match p with
  | deal_breakers => "rules_context.deal_breakers.rules"
  | patient_data_rules => "rules_context.patient_data.rules"
  | pdf_analysis => "rules_context.pdf_analysis.rules"
  | webportal => "rules_context.webportal.rules"
  end.

(** What a run leaves behind: the calls made on the webdriver, in order;
    the rule phases executed with the actions each one produced, in order;
    the records handed to [Response.add_patient] with their comment; and
    how many times the mail was sent. *)
Record world := mk_world {
  calls : list call;
  audit : list (phase * list string);
  added : list (pydict * string);
  mails : nat
}.

Definition empty_world : world :=
  {| calls := []; audit := []; added := []; mails := 0 |}.

(** ** The monad of the embedding: state and exceptions *)

Definition M (A : Type) : Type := world -> outcome A * world.

Definition ret {A} (a : A) : M A := fun w => (Ok a, w).

Definition raise {A} (e : exn) : M A := fun w => (Raise e, w).

Definition bind {A B} (c : M A) (k : A -> M B) : M B :=
  fun w =>
    match c w with
    | (Ok a, w') => k a w'
    | (Raise e, w') => (Raise e, w')
    end.

Notation "'let!' x ':=' c 'in' k" := (bind c (fun x => k))
  (at level 10, x name, c at level 100, k at level 200).

(** Lift a pure computation that may raise. *)
Definition lift {A} (o : outcome A) : M A := fun w => (o, w).

(** [for x in l: body(x)]. *)
Fixpoint for_each {A} (l : list A) (body : A -> M unit) : M unit :=
  match l with
  | [] => ret tt
  | x :: rest => let! _ := body x in for_each rest body
  end.

(** [for x in l: acc = body(acc, x)]. *)
Fixpoint for_fold {A S} (l : list A) (body : S -> A -> M S) (acc : S) : M S :=
  match l with
  | [] => ret acc
  | x :: rest => let! acc' := body acc x in for_fold rest body acc'
  end.

(** [d[key]] on a dictionary. *)
Definition getitem (d : pydict) (key : string) : M pyval :=
  match d !! key with
  | Some v => ret v
  | None => raise (KeyError key)
  end.

(** ** The rule engine *)

(** Modelled from the spec: the condition grammar of the rules
    ([rules_engine.RULES_ENGINE] and the [rule_engine] package it wraps are
    not part of the sources).  Section 4.1 gives the grammar: comparisons,
    membership, conjunction, disjunction and negation over named context
    fields and literals. *)
Inductive cmp := CEq | CNe | CLt | CLe | CGt | CGe.

Inductive expr :=
| EField (name : string)
| ELit (v : pyval)
| ECmp (op : cmp) (a b : expr)
| EAmong (a : expr) (choices : list pyval)
| EIn (a b : expr)
| EAnd (a b : expr)
| EOr (a b : expr)
| ENot (a : expr).

Definition eval_cmp (op : cmp) (x y : pyval) : option pyval :=
  match op, x, y with
  | CEq, _, _ => Some (VBool (bool_decide (x = y)))
  | CNe, _, _ => Some (VBool (negb (bool_decide (x = y))))
  | CLt, VInt a, VInt b => Some (VBool (Z.ltb a b))
  | CLe, VInt a, VInt b => Some (VBool (Z.leb a b))
  | CGt, VInt a, VInt b => Some (VBool (Z.ltb b a))
  | CGe, VInt a, VInt b => Some (VBool (Z.leb b a))
  | _, _, _ => None
  end.

(** Modelled from the spec: evaluation of a condition against a context;
    [None] is the RuleEvaluationError of section 4.1 (an undefined field, or
    operands the operator does not accept). *)
Fixpoint eval (ctx : pydict) (e : expr) : option pyval :=
  match e with
  | EField name => ctx !! name
  | ELit v => Some v
  | ECmp op a b =>
      match eval ctx a, eval ctx b with
      | Some x, Some y => eval_cmp op x y
      | _, _ => None
      end
  | EAmong a choices =>
      match eval ctx a with
      | Some x => Some (VBool (bool_decide (x ∈ choices)))
      | None => None
      end
  | EIn a b =>
      match eval ctx a, eval ctx b with
      | Some (VStr s), Some (VList l) => Some (VBool (bool_decide (s ∈ l)))
      | _, _ => None
      end
  | EAnd a b =>
      match eval ctx a, eval ctx b with
      | Some (VBool x), Some (VBool y) => Some (VBool (x && y))
      | _, _ => None
      end
  | EOr a b =>
      match eval ctx a, eval ctx b with
      | Some (VBool x), Some (VBool y) => Some (VBool (x || y))
      | _, _ => None
      end
  | ENot a =>
      match eval ctx a with
      | Some (VBool x) => Some (VBool (negb x))
      | _ => None
      end
  end.

Record Rule := mk_rule { condition : expr; rule_actions : list string }.

(** The dictionary [execute] returns: keys ["passed"] and ["actions"]. *)
Record RuleEvaluationResult := mk_result { passed : Z; actions : list string }.

(** A rule whose condition raises is skipped and counts as not matching. *)
Definition rule_matches (ctx : pydict) (r : Rule) : bool :=
  match eval ctx (condition r) with
  | Some (VBool true) => true
  | _ => false
  end.

(** Modelled from the spec: one phase of [RULES_ENGINE.execute] (section
    4.1).  Every rule is evaluated, in order; each matching rule increments
    the count and appends its actions both to the returned sequence and to
    the audit trail [comments], which Python mutates in place and the
    embedding returns. *)
Fixpoint run_rules (rs : list Rule) (ctx : pydict)
    (res : RuleEvaluationResult) (comments : list string)
  : RuleEvaluationResult * list string :=
  match rs with
  | [] => (res, comments)
  | r :: rest =>
      if rule_matches ctx r then
        run_rules rest ctx
          {| passed := passed res + 1; actions := actions res ++ rule_actions r |}
          (comments ++ rule_actions r)
      else run_rules rest ctx res comments
  end.

(** ** Configuration and collaborators *)

(** One entry of [config_yaml["mapping"]["csv"]]. *)
Record column := mk_column {
  coltype : string;
  var_name : string;
  colname : string;
  date_format : option string
}.

Record Config := mk_config {
  mapping_csv : list column;
  rules_context : phase -> list Rule
}.

(** The insurer's portal as the webdriver shows it: which calls fail and
    with what, the text of a fetched page, the JSON body of a POST (an
    object whose members are lists of records), and the texts of the
    elements a locator matches.  The portal is a snapshot: its answer
    depends on the request only. *)
Record Portal := mk_portal {
  fault : call -> option exn;
  page_text : string -> string;
  reply_json : string -> list (string * pyval) -> gmap string (list pydict);
  elements_text : string -> string -> list string
}.

(** Everything outside [ProcessPatients]: the portal, the clock, the
    library functions [relativedelta(..).years] and [datetime.strptime]
    ([None] when the text does not match the format), the repository's
    [PNR_STATUS_MANAGER.get_pnr_status] and [check_pdf], whose sources are
    not available, and the CSV files by path (a file is its list of rows,
    each a dictionary from the header's column names to text). *)
Record Env := mk_env {
  portal : Portal;
  now : datetime;
  relativedelta_years : datetime -> datetime -> Z;
  strptime : string -> string -> option datetime;
  get_pnr_status : string -> Z;
  check_pdf : pyval -> pyval -> pyval -> outcome (list string);
  files : string -> option (list (gmap string string))
}.

(** The fields of a [ProcessPatients] object its methods read.  The
    credentials come from [os.getenv], which gives [None] for a variable
    that is not set. *)
Record ProcessPatients := mk_self {
  username : pyval;
  password : pyval;
  path_file_input : string;
  config_yaml : Config
}.

(** [fetch_env_vars]: the two credentials as [os.getenv] returns them. *)
Definition fetch_env_vars (environ : gmap string string) : pydict :=
  let getenv name :=
    match environ !! name with Some s => VStr s | None => VNone end in
  <["HEALTHFORCE_XWYZ_USERNAME" := getenv "HEALTHFORCE_XWYZ_USERNAME"]>
    (<["HEALTHFORCE_XWYZ_PASSWORD" := getenv "HEALTHFORCE_XWYZ_PASSWORD"]> ∅).

(** [env_variables.get(name)]. *)
Definition dict_get (d : pydict) (name : string) : pyval :=
  match d !! name with Some v => v | None => VNone end.

(** ** The methods of [ProcessPatients] *)

Definition log_call (c : call) (w : world) : world :=
  {| calls := calls w ++ [c]; audit := audit w; added := added w; mails := mails w |}.

Definition log_phase (ph : phase) (acts : list string) (w : world) : world :=
  {| calls := calls w; audit := audit w ++ [(ph, acts)]; added := added w;
     mails := mails w |}.

Definition log_added (pd : pydict) (comment : string) (w : world) : world :=
  {| calls := calls w; audit := audit w; added := added w ++ [(pd, comment)];
     mails := mails w |}.

Definition log_mail (w : world) : world :=
  {| calls := calls w; audit := audit w; added := added w; mails := S (mails w) |}.

Definition url_login : string :=
  "https://app.investire-in-italy/CentriDiagnostici/MenuCentri".

Definition url_cerca_quadro : string :=
  "https://app.investire-in-italy.it/GestionePNR/CercaQuadro?PNR=".

Definition url_database : string :=
  "https://app.investire-in-italy.it/CentriDiagnostici/ControlloQuadri/GridAutorizzazioni_Read".

Definition url_identify_patient : string :=
  "https://app.investire-in-italy.it/CentriDiagnostici/ControlloQuadri/Index2".

Definition msg_login : string :=
  "The username or password are missing, it's not possible to login to the insurance server".

Definition msg_unknown_type : string := "Unknown type found in the YAML config file".

Definition msg_prestazioni : string :=
  "Unable to find prestazioni with any of the provided codes".

Section Methods.

Variable E : Env.
Variable self : ProcessPatients.

(** *** The webdriver: every call is recorded, then fails or answers. *)

Definition webdriver_call (c : call) : M unit :=
  fun w =>
    (match fault (portal E) c with Some e => Raise e | None => Ok tt end,
     log_call c w).

(** [self.webdriver.get(url).text] *)
Definition webdriver_get_text (url : string) : M string :=
  let! _ := webdriver_call (Get url) in ret (page_text (portal E) url).

(** [self.webdriver.post(url, payload=payload)], as its [json()]. *)
Definition webdriver_post (url : string) (payload : list (string * pyval))
  : M (gmap string (list pydict)) :=
  let! _ := webdriver_call (Post url payload) in
  ret (reply_json (portal E) url payload).

Definition find_element (by_ value : string) : M element :=
  let! _ := webdriver_call (FindElement by_ value) in
  ret (mk_element by_ value "").

Definition find_elements (by_ value : string) : M (list element) :=
  let! _ := webdriver_call (FindElements by_ value) in
  ret (map (mk_element by_ value) (elements_text (portal E) by_ value)).

(** *** The collaborators [Response] and [RULES_ENGINE] *)

(** Modelled from the spec: [Response.add_patient] (module [response] is
    not part of the sources) takes the finalized record and its comment
    for the report (section 6, reporting collaborator). *)
Definition add_patient (pd : pydict) (comments : string) : M unit :=
  fun w => (Ok tt, log_added pd comments w).

(** Modelled from the spec: [Response.send_mail_to_hospital] delivers the
    report. *)
Definition send_mail_to_hospital : M unit :=
  fun w => (Ok tt, log_mail w).

(** Modelled from the spec: [RULES_ENGINE(config_yaml).execute(key,
    context, comments)] runs the phase's rules; the phase and the actions
    it produced are recorded in [audit]. *)
Definition execute (ph : phase) (ctx : pydict) (comments : list string)
  : M (RuleEvaluationResult * list string) :=
  fun w =>
    let r := run_rules (rules_context (config_yaml self) ph) ctx
               {| passed := 0; actions := [] |} comments in
    (Ok r, log_phase ph (actions (fst r)) w).

(** [rule_engine.Rule(text).evaluate(context)] for a parsed [text]. *)
Definition evaluate (e : expr) (ctx : pydict) : M bool :=
  match eval ctx e with
  | Some (VBool b) => ret b
  | _ => raise RuleEngineError
  end.

(** Modelled from the spec: [fetch_telerik_pdf(webdriver, patient_pic)]
    (module [telerik_bypass] is not part of the sources) downloads the
    document of an authorization through the session. *)
Definition fetch_telerik_pdf (patient_pic : pyval) : M unit :=
  webdriver_call (FetchTelerikPdf patient_pic).

(** *** [login] *)

Definition login : M (gmap string (list pydict)) :=
  if bool_decide (username self = VStr "") || bool_decide (password self = VStr "")
  then raise (ValueError msg_login)
  else
    let payload := [("UserName", username self); ("Password", password self)] in
    let! _ := webdriver_post url_login payload in
    webdriver_post url_login payload.

(** *** [_parse_input_from_hospital] *)

Definition row_getitem (row : gmap string string) (key : string) : outcome string :=
  match row !! key with
  | Some v => Ok v
  | None => Raise (KeyError key)
  end.

(** The body of the inner loop: one column of one row.  In the [array]
    branch the name [ast] is looked up before anything else of the
    statement is evaluated, and the module never imports it. *)
Definition convert_item (row : gmap string string) (item_dict : pydict)
    (item : column) : outcome pydict :=
  if String.eqb (coltype item) "string" then
    match row_getitem row (colname item) with
    | Ok v => Ok (<[var_name item := VStr v]> item_dict)
    | Raise e => Raise e
    end
  else if String.eqb (coltype item) "array" then
    Raise (NameError "ast")
  else if String.eqb (coltype item) "bool" then
    match row_getitem row (colname item) with
    | Ok v => Ok (<[var_name item := VBool (String.eqb (lower v) "true")]> item_dict)
    | Raise e => Raise e
    end
  else if String.eqb (coltype item) "date" then
    match row_getitem row (colname item) with
    | Ok v =>
        match date_format item with
        | Some fmt =>
            match strptime E v fmt with
            | Some d => Ok (<[var_name item := VDate d]> item_dict)
            | None => Raise (ValueError "time data does not match format")
            end
        | None => Raise (KeyError "date_format")
        end
    | Raise e => Raise e
    end
  else Raise (ValueError msg_unknown_type).

Fixpoint convert_row (row : gmap string string) (items : list column)
    (item_dict : pydict) : outcome pydict :=
  match items with
  | [] => Ok item_dict
  | item :: rest =>
      match convert_item row item_dict item with
      | Ok d => convert_row row rest d
      | Raise e => Raise e
      end
  end.

Fixpoint convert_rows (rows : list (gmap string string))
    (element_array : list pydict) : outcome (list pydict) :=
  match rows with
  | [] => Ok element_array
  | row :: rest =>
      match convert_row row (mapping_csv (config_yaml self)) ∅ with
      | Ok item_dict => convert_rows rest (element_array ++ [item_dict])
      | Raise e => Raise e
      end
  end.

Definition _parse_input_from_hospital (path : string) : M (list pydict) :=
  match files E path with
  | None => raise FileNotFoundError
  | Some rows => lift (convert_rows rows [])
  end.

(** *** [fetch_patient_data] and [_fetch_pic_from_database] *)

Definition fetch_patient_data (patient_pnr : string) : M string :=
  webdriver_get_text (url_cerca_quadro ++ patient_pnr).

Definition pic_payload (patient_pnr : string) : list (string * pyval) :=
  [("page", VInt 1); ("pageSize", VInt 50); ("FieldFilter", VStr patient_pnr)].

(** [result.json()["Data"][0]["NumeroAuth"]] *)
Definition first_numero_auth (reply : gmap string (list pydict)) : outcome pyval :=
  match reply !! "Data" with
  | None => Raise (KeyError "Data")
  | Some [] => Raise IndexError
  | Some (record :: _) =>
      match record !! "NumeroAuth" with
      | Some pic => Ok pic
      | None => Raise (KeyError "NumeroAuth")
      end
  end.

Definition _fetch_pic_from_database (patient_pnr : string) : M pyval :=
  let! result := webdriver_post url_database (pic_payload patient_pnr) in
  lift (first_numero_auth result).

(** *** [_check_request_accepted] *)

(** The inner loop of the category search: the first offered item whose
    text equals the code. *)
Fixpoint find_item (items : list element) (current_code : pyval) : option element :=
  match items with
  | [] => None
  | item :: rest =>
      if bool_decide (VStr (el_text item) = current_code) then Some item
      else find_item rest current_code
  end.

(** The outer loop with its [else] clause: the offered items are queried
    again for every code tried. *)
Fixpoint select_item (codes_to_try : list pyval) : M element :=
  match codes_to_try with
  | [] => raise (ValueError msg_prestazioni)
  | current_code :: rest =>
      let! items := find_elements By.CLASS_NAME "k-item" in
      match find_item items current_code with
      | Some item => ret item
      | None => select_item rest
      end
  end.

Definition codes_to_try (code_prestazioni : pyval) : list pyval :=
  [code_prestazioni; VStr "Visite specialistiche"; VStr "Altre prestazioni"].

(** The pauses ([time.sleep]) and the log lines leave no trace here. *)
Definition _check_request_accepted (patient_pnr : string)
    (patient_esame code_prestazioni : pyval) : M unit :=
  let! _ := webdriver_call (GetSelenium url_identify_patient) in
  let! e := find_element By.ID "PNR" in
  let! _ := webdriver_call (SendKeys e (VStr patient_pnr)) in
  let! e := find_element By.ID "cercaQuadro" in
  let! _ := webdriver_call (ClickJs e) in
  let! e := find_element By.ID "btnQuadroOK" in
  let! _ := webdriver_call (ClickJs e) in
  let! e := find_element By.CSS_SELECTOR
              ".k-widget.k-multiselect.k-multiselect-clearable" in
  let! _ := webdriver_call (Click e) in
  let! item := select_item (codes_to_try code_prestazioni) in
  let! _ := webdriver_call (Click item) in
  let! e := find_element By.ID "btnVerifica" in
  let! _ := webdriver_call (ClickJs e) in
  let! found := find_elements By.XPATH "//h4/following-sibling::p" in
  let! message := match found with
                  | [] => raise IndexError
                  | m :: _ => ret (el_text m)
                  end in
  let! e := find_element By.ID "NoteAuth" in
  let! _ := webdriver_call (SendKeys e patient_esame) in
  let! e := find_element By.ID "cercaQuadro" in
  let! _ := webdriver_call (ClickJs e) in
  let! e := find_element By.ID "btnIstruisci" in
  webdriver_call (ClickJs e).

(** *** [process_pnr] *)

Definition rule_status_in_1_2 : expr := EAmong (EField "pnr_status") [VInt 1; VInt 2].
Definition rule_status_is_1 : expr := ECmp CEq (EField "pnr_status") (ELit (VInt 1)).

Definition process_pnr (patient_data : pydict) (pnr : string)
    (comments : list string) : M (pydict * list string) :=
  let! html_page_identify := fetch_patient_data pnr in
  let patient_data :=
    <["pnr_status" := VInt (get_pnr_status E html_page_identify)]> patient_data in
  let! actionable := evaluate rule_status_in_1_2 patient_data in
  let! r :=
    if actionable then
      let! awaiting := evaluate rule_status_is_1 patient_data in
      let! _ :=
        if awaiting then
          let! esame := getitem patient_data "esame" in
          let! prestazioni := getitem patient_data "prestazioni" in
          _check_request_accepted pnr esame prestazioni
        else ret tt in
      let! pic := _fetch_pic_from_database pnr in
      let patient_data := <["pic" := pic]> patient_data in
      let! _ := fetch_telerik_pdf pic in
      let! insurance_name := getitem patient_data "insurance_name" in
      let! fiscal_code := getitem patient_data "codice_fiscale" in
      let! error_codes := lift (check_pdf E pic insurance_name fiscal_code) in
      let! r1 := execute patient_data_rules patient_data comments in
      let! r2 := execute pdf_analysis
                   (<["error_codes" := VList error_codes]> ∅) (snd r1) in
      ret (patient_data, snd r2)
    else ret (<["pic" := VNone]> patient_data, comments) in
  let! r3 := execute webportal (fst r) (snd r) in
  ret (fst r, snd r3).

(** *** [process_patient] *)

(** [for pnr in patient_data["pnr"]]: what the loop iterates over.  A
    list gives its elements; a [str], which is all a CSV column can be
    converted to as long as the [array] type raises, gives its characters. *)
Definition iterate (v : pyval) : M (list string) :=
  match v with
  | VList l => ret l
  | VStr s => ret (chars s)
  | _ => raise TypeError
  end.

Definition process_patient (patient_data : pydict) : M unit :=
  let! birthday := getitem patient_data "birthday" in
  let! age := match birthday with
              | VDate b => ret (relativedelta_years E (now E) b)
              | _ => raise TypeError
              end in
  let patient_data := <["age" := VInt age]> patient_data in
  let! r := execute deal_breakers patient_data [] in
  if Z.ltb 0 (passed (fst r)) then
    add_patient (<["pic" := VNone]> patient_data) (join " / " (actions (fst r)))
  else
    let! refs := getitem patient_data "pnr" in
    let! refs := iterate refs in
    let! s := for_fold refs (fun s pnr => process_pnr (fst s) pnr (snd s))
                (patient_data, snd r) in
    add_patient (fst s) (join " / " (snd s)).

(** *** [process_patients] *)

Definition process_patients : M unit :=
  let! patients := _parse_input_from_hospital (path_file_input self) in
  let! _ := login in
  let! _ := for_each patients process_patient in
  let! _ := webdriver_call Quit in
  send_mail_to_hospital.

End Methods.

(** ** Observations of a run *)

(** The world after more has been observed: the four logs only grow. *)
Definition app_world (w d : world) : world :=
  {| calls := calls w ++ calls d;
     audit := audit w ++ audit d;
     added := added w ++ added d;
     mails := (mails w + mails d)%nat |}.

Infix "⊕" := app_world (at level 50, left associativity).

(** [yields c P]: from any world, [c] extends the logs by some [d] and ends
    with some outcome [o] such that [P o d]. *)
Definition yields {A} (c : M A) (P : outcome A -> world -> Prop) : Prop :=
  forall w, exists o d, c w = (o, w ⊕ d) /\ P o d.

(** Nothing was observed but webdriver calls, all satisfying [ok]. *)
Definition silent (ok : call -> bool) (d : world) : Prop :=
  forallb ok (calls d) = true /\ audit d = [] /\ added d = [] /\ mails d = 0%nat.

(** [c] touches nothing but the webdriver, with calls all satisfying [ok],
    and a value it returns satisfies [R]. *)
Definition only_calls {A} (ok : call -> bool) (c : M A) (R : A -> Prop) : Prop :=
  yields c (fun o d => silent ok d /\ forall a, o = Ok a -> R a).

(** The action strings of a sequence of executed phases, in order. *)
Definition flat (la : list (phase * list string)) : list string :=
  concat (map snd la).

(** The identifier lookup: a POST to the authorizations grid. *)
Definition is_lookup (c : call) : bool :=
  match c with Post url _ => String.eqb url url_database | _ => false end.

(** The calls only the accept-request procedure makes: everything on the
    selenium side of the webdriver. *)
Definition is_accept (c : call) : bool :=
  match c with
  | GetSelenium _ | FindElement _ _ | FindElements _ _
  | SendKeys _ _ | ClickJs _ | Click _ => true
  | _ => false
  end.

Definition is_quit (c : call) : bool :=
  match c with Quit => true | _ => false end.

Definition not_quit (c : call) : bool := negb (is_quit c).

(** The first of the codes that the portal offers, as section 4.3 words the
    category policy: "use the first one present in the portal's offered
    category list". *)
Fixpoint first_present (codes : list pyval) (offered : list string) : option string :=
  match codes with
  | [] => None
  | VStr text :: rest =>
      if bool_decide (text ∈ offered) then Some text else first_present rest offered
  | _ :: rest => first_present rest offered
  end.

(** The status the portal page of a reference resolves to. *)
Definition resolved_status (E : Env) (pnr : string) : Z :=
  get_pnr_status E (page_text (portal E) (url_cerca_quadro ++ pnr)).

(** The outcome of the deal-breaker phase on a record whose age is set. *)
Definition gate (self : ProcessPatients) (patient_data : pydict)
  : RuleEvaluationResult * list string :=
  run_rules (rules_context (config_yaml self) deal_breakers) patient_data
    {| passed := 0; actions := [] |} [].

Definition with_age (E : Env) (patient_data : pydict) (b : datetime) : pydict :=
  <["age" := VInt (relativedelta_years E (now E) b)]> patient_data.

(** What the identifier lookup of a reference answers. *)
Definition lookup_result (E : Env) (pnr : string) : outcome pyval :=
  first_numero_auth (reply_json (portal E) url_database (pic_payload pnr)).

(** The two fields of a record after [process_pnr] has returned for the
    reference [pnr]. *)
Definition pnr_outcome (E : Env) (pnr : string) (record : pydict) : Prop :=
  record !! "pnr_status" = Some (VInt (resolved_status E pnr)) /\
  (resolved_status E pnr = 1 \/ resolved_status E pnr = 2 ->
     exists pic, lookup_result E pnr = Ok pic /\ record !! "pic" = Some pic) /\
  (resolved_status E pnr <> 1 -> resolved_status E pnr <> 2 ->
     record !! "pic" = Some VNone).

(** A computation that threads the audit trail: it leaves the session
    open, adds no record and sends no mail, and the trail it returns is the
    one it was given followed by the actions of the phases it ran. *)
Definition tracked {A} (comments : list string) (R : A -> Prop)
    (o : outcome (A * list string)) (d : world) : Prop :=
  forallb not_quit (calls d) = true /\ added d = [] /\ mails d = 0%nat /\
  forall a c', o = Ok (a, c') -> c' = comments ++ flat (audit d) /\ R a.

(** The last element of a list. *)
Fixpoint last_ref (refs : list string) : option string :=
  match refs with
  | [] => None
  | [r] => Some r
  | _ :: rest => last_ref rest
  end.

(** ** A small portal, rule set and input file, for the examples *)

Module Demo.

(** Whole years from [b] to [a], as [relativedelta(a, b).years] for [b]
    not after [a]. *)
Definition years_between (a b : datetime) : Z :=
  dt_year a - dt_year b
  - (if Z.ltb (dt_month a) (dt_month b)
        || (Z.eqb (dt_month a) (dt_month b) && Z.ltb (dt_day a) (dt_day b))
     then 1 else 0).

Definition demo_strptime (text fmt : string) : option datetime :=
  if String.eqb fmt "%d/%m/%Y" then
    if String.eqb text "01/01/1980" then Some (mk_datetime 1980 1 1)
    else if String.eqb text "01/01/2000" then Some (mk_datetime 2000 1 1)
    else if String.eqb text "15/09/2015" then Some (mk_datetime 2015 9 15)
    else None
  else None.

Definition demo_rules (ph : phase) : list Rule :=
  match ph with
  | deal_breakers =>
      [mk_rule (ECmp CLt (EField "age") (ELit (VInt 18))) ["minor"]]
  | patient_data_rules =>
      [mk_rule (ECmp CEq (EField "insurance_name") (ELit (VStr "ACME"))) ["insurer known"];
       mk_rule (ECmp CEq (EField "no_such_field") (ELit (VInt 0))) ["never"]]
  | pdf_analysis =>
      [mk_rule (EIn (ELit (VStr "E1")) (EField "error_codes")) ["document unreadable"]]
  | webportal =>
      [mk_rule (ECmp CEq (EField "pnr_status") (ELit (VInt 1))) ["accepted by hand"];
       mk_rule (ENot (EAmong (EField "pnr_status") [VInt 1; VInt 2])) ["not actionable"]]
  end.

(** The identifier lookup answers one record per reference. *)
Definition demo_reply (url : string) (payload : list (string * pyval))
  : gmap string (list pydict) :=
  match payload with
  | [_; _; (_, VStr pnr)] =>
      if String.eqb pnr "E" then <["Data" := []]> ∅
      else <["Data" := [ <["NumeroAuth" := VStr ("PIC-" ++ pnr)]> ∅ ]]> ∅
  | _ => ∅
  end.

(** The page of reference "X" times out; the portal offers one category. *)
Definition demo_portal (offered : list string) : Portal :=
  {| fault := fun c =>
       match c with
       | Get url =>
           if String.eqb url (url_cerca_quadro ++ "X")
           then Some (PortalError "timeout") else None
       | _ => None
       end;
     page_text := fun url => url;
     reply_json := demo_reply;
     elements_text := fun by_ value =>
       if String.eqb value "k-item" then offered else ["Richiesta inviata"] |}.

Definition demo_status (html : string) : Z :=
  if String.eqb html (url_cerca_quadro ++ "1") then 1
  else if String.eqb html (url_cerca_quadro ++ "2") then 2
  else if String.eqb html (url_cerca_quadro ++ "E") then 2
  else 0.

Definition row (cf birthday pnr prestazioni : string) : gmap string string :=
  list_to_map
    [("CF", cf); ("NASCITA", birthday); ("PNR", pnr); ("ESAME", "RX torace");
     ("PRESTAZIONI", prestazioni); ("ASSICURAZIONE", "ACME"); ("URGENTE", "True")].

Definition demo_files (path : string) : option (list (gmap string string)) :=
  if String.eqb path "three.csv" then
    Some [row "CF1" "01/01/1980" "2" "Radiologia";
          row "CF2" "01/01/1980" "X" "Radiologia";
          row "CF3" "15/09/2015" "1" "Radiologia"]
  else if String.eqb path "two.csv" then
    Some [row "CF1" "01/01/1980" "1" "Radiologia";
          row "CF3" "15/09/2015" "1" "Radiologia"]
  else None.

Definition demo_env (offered : list string) : Env :=
  {| portal := demo_portal offered;
     now := mk_datetime 2024 6 1;
     relativedelta_years := years_between;
     strptime := demo_strptime;
     get_pnr_status := demo_status;
     check_pdf := fun _ _ _ => Ok ["E1"];
     files := demo_files |}.

Definition demo_mapping : list column :=
  [mk_column "string" "codice_fiscale" "CF" None;
   mk_column "date" "birthday" "NASCITA" (Some "%d/%m/%Y");
   mk_column "string" "pnr" "PNR" None;
   mk_column "string" "esame" "ESAME" None;
   mk_column "string" "prestazioni" "PRESTAZIONI" None;
   mk_column "string" "insurance_name" "ASSICURAZIONE" None;
   mk_column "bool" "urgent" "URGENTE" None].

Definition demo_config : Config := mk_config demo_mapping demo_rules.

Definition demo_self (path : string) : ProcessPatients :=
  mk_self (VStr "centre") (VStr "secret") path demo_config.

(** The record [_parse_input_from_hospital] makes of a row. *)
Definition parsed (r : gmap string string) : pydict :=
  match convert_row (demo_env []) r demo_mapping ∅ with
  | Ok item_dict => item_dict
  | Raise _ => ∅
  end.

(** A record as [process_patient] receives it, with a list of references. *)
Definition patient (birthday : datetime) (refs : list string) : pydict :=
  <["codice_fiscale" := VStr "CF0"]>
    (<["birthday" := VDate birthday]>
      (<["pnr" := VList refs]>
        (<["esame" := VStr "RX torace"]>
          (<["prestazioni" := VStr "Radiologia"]>
            (<["insurance_name" := VStr "ACME"]> ∅))))).

Definition adult (refs : list string) : pydict := patient (mk_datetime 1980 1 1) refs.
Definition minor (refs : list string) : pydict := patient (mk_datetime 2014 3 2) refs.

(** The process environment holds the password only. *)
Definition environ_without_username : gmap string string :=
  <["HEALTHFORCE_XWYZ_PASSWORD" := "secret"]> ∅.

Definition self_of_environ (environ : gmap string string) (path : string)
  : ProcessPatients :=
  let env_variables := fetch_env_vars environ in
  mk_self (dict_get env_variables "HEALTHFORCE_XWYZ_USERNAME")
          (dict_get env_variables "HEALTHFORCE_XWYZ_PASSWORD")
          path demo_config.

(** A mapping with a column of an unknown type ahead of a list column. *)
Definition mixed_mapping : list column :=
  [mk_column "int" "visits" "VISITE" None;
   mk_column "array" "pnr" "PNR" None].

Definition array_mapping : list column :=
  [mk_column "string" "codice_fiscale" "CF" None;
   mk_column "array" "pnr" "PNR" None].

Definition self_with_mapping (m : list column) : ProcessPatients :=
  mk_self (VStr "centre") (VStr "secret") "two.csv" (mk_config m demo_rules).

End Demo.

(** ** The methods of [ProcessPatients] outside the batch path *)

(** [try: body  except Exception as e: handler(e)]. *)
Definition try_except {A} (body : M A) (handler : exn -> M A) : M A :=
  fun w =>
    match body w with
    | (Ok a, w') => (Ok a, w')
    | (Raise e, w') => handler e w'
    end.

(** [fetch_webpage]: the text of the page, or [None] (the function falls
    off its [except] branch) when the request raises. *)
Definition fetch_webpage (E : Env) (url : string) : M pyval :=
  try_except
    (let! page := webdriver_get_text E url in ret (VStr page))
    (fun _ => ret VNone).

(** [fetch_and_parse_pic]: the lookup of [_fetch_pic_from_database] inside
    a [try], with [None] returned from the [except] branch. *)
Definition fetch_and_parse_pic (E : Env) (patient_pnr : string) : M pyval :=
  try_except
    (let! result := webdriver_post E url_database (pic_payload patient_pnr) in
     lift (first_numero_auth result))
    (fun _ => ret VNone).

(** *** [str.split] and [_retrieve_pic_from_identify_page] *)

Fixpoint starts_with (sep s : string) : bool :=
  match sep, s with
  | EmptyString, _ => true
  | String a sep', String b s' => Ascii.eqb a b && starts_with sep' s'
  | String _ _, EmptyString => false
  end.

Fixpoint drop_chars (n : nat) (s : string) : string :=
  match n, s with
  | O, _ => s
  | S n', String _ s' => drop_chars n' s'
  | S _, EmptyString => EmptyString
  end.

(** The text before and after the first occurrence of [sep] in [s]. *)
Fixpoint cut (sep s : string) : option (string * string) :=
  if starts_with sep s then Some (EmptyString, drop_chars (String.length sep) s)
  else
    match s with
    | EmptyString => None
    | String c s' =>
        match cut sep s' with
        | Some (before, after) => Some (String c before, after)
        | None => None
        end
    end.

Fixpoint split_fuel (fuel : nat) (sep s : string) : list string :=
  match fuel with
  | O => [s]
  | S fuel' =>
      match cut sep s with
      | Some (before, after) => before :: split_fuel fuel' sep after
      | None => [s]
      end
  end.

(** [s.split(sep)] for a non-empty [sep]: the pieces between the
    occurrences of [sep] found from left to right. *)
Definition split (sep s : string) : list string :=
  split_fuel (String.length s) sep s.

Definition marker_pic : string := "ListaAutorizzazioni?filter=".

Definition double_quote : string := String (ascii_of_nat 34) EmptyString.

(** The last piece of the body split at the marker, up to its first
    double quote: [html_body.split(marker)[-1].split(quote)[0]]. *)
Definition _retrieve_pic_from_identify_page (html_body : string) : string :=
  List.hd EmptyString
    (split double_quote (List.last (split marker_pic html_body) EmptyString)).

(** Whether the character occurs in the text. *)
Fixpoint has_char (c : ascii) (s : string) : bool :=
  match s with
  | EmptyString => false
  | String b s' => Ascii.eqb c b || has_char c s'
  end.

(** Whether [sep] occurs somewhere in [s]. *)
Fixpoint occurs (sep s : string) : bool :=
  starts_with sep s ||
  match s with
  | EmptyString => false
  | String _ s' => occurs sep s'
  end.

(** No proper, non-empty end of [sep] is also a beginning of it: two
    occurrences of [sep] never overlap. *)
Definition border_free (sep : string) : bool :=
  forallb (fun k => negb (starts_with (drop_chars k sep) sep))
    (seq 1 (String.length sep - 1)).

(** *** [load_yaml_config] of [config_utilities] *)


(** ** More observations *)

(** The references [process_patient] loops over for a record. *)
Definition refs_of (patient_data : pydict) : list string :=
  match patient_data !! "pnr" with
  | Some (VList l) => l
  | Some (VStr s) => chars s
  | _ => []
  end.

(** A value a CSV column can be converted to. *)
Definition is_parsed_value (v : pyval) : bool :=
  match v with
  | VStr _ | VBool _ | VDate _ => true
  | _ => false
  end.

(** The type tags [_parse_input_from_hospital] knows. *)
Definition known_coltype (t : string) : bool :=
  String.eqb t "string" || String.eqb t "array" || String.eqb t "bool"
  || String.eqb t "date".

(** [c] only extends the list of calls, by calls satisfying [ok]. *)
Definition emits {A} (ok : call -> bool) (c : M A) : Prop :=
  yields c (fun _ d => forallb ok (calls d) = true).

(** A call [process_pnr] may make for the reference [pnr]: the page of that
    reference, the lookup keyed by it, the selenium page of the request and
    what is done on it (the PNR field receiving [pnr]), the download of the
    identifier looked up for it.  Never the login form, never [quit]. *)
Definition about_reference (E : Env) (pnr : string) (c : call) : bool :=
  match c with
  | Get url => String.eqb url (url_cerca_quadro ++ pnr)
  | Post url payload =>
      String.eqb url url_database && bool_decide (payload = pic_payload pnr)
  | GetSelenium url => String.eqb url url_identify_patient
  | SendKeys e keys =>
      if String.eqb (el_value e) "PNR" then bool_decide (keys = VStr pnr) else true
  | FetchTelerikPdf pic =>
      match lookup_result E pnr with
      | Ok pic' => bool_decide (pic = pic')
      | Raise _ => false
      end
  | FindElement _ _ | FindElements _ _ | ClickJs _ | Click _ => true
  | Quit => false
  end.

Definition about_references (E : Env) (refs : list string) (c : call) : bool :=
  existsb (fun pnr => about_reference E pnr c) refs.

(** The phases [process_pnr] runs when it returns, by status. *)
Definition phases_of_status (status : Z) : list phase :=
  if bool_decide (status = 1 \/ status = 2)
  then [patient_data_rules; pdf_analysis; webportal]
  else [webportal].

(** The selenium calls of the accept-request procedure up to the category
    search, and after it. *)
Definition accept_opening (patient_pnr : string) : list call :=
  let pnr_field := mk_element By.ID "PNR" "" in
  let cerca := mk_element By.ID "cercaQuadro" "" in
  let ok_button := mk_element By.ID "btnQuadroOK" "" in
  let scroller :=
    mk_element By.CSS_SELECTOR ".k-widget.k-multiselect.k-multiselect-clearable" "" in
  [GetSelenium url_identify_patient;
   FindElement By.ID "PNR"; SendKeys pnr_field (VStr patient_pnr);
   FindElement By.ID "cercaQuadro"; ClickJs cerca;
   FindElement By.ID "btnQuadroOK"; ClickJs ok_button;
   FindElement By.CSS_SELECTOR ".k-widget.k-multiselect.k-multiselect-clearable";
   Click scroller].

(** The call that submits the patient to the insurer's database. *)
Definition is_submit (c : call) : bool :=
  match c with
  | ClickJs e => String.eqb (el_value e) "btnIstruisci"
  | _ => false
  end.

(** A few pages and files for the examples. *)
Module Samples.

Definition page_with_link : string :=
  "<a href=" ++ double_quote ++ "/CentriDiagnostici/ListaAutorizzazioni?filter=PIC-77"
  ++ double_quote ++ ">Autorizzazioni</a>".



(** A file whose second row lacks the birth date column, and an empty one. *)
Definition sample_files (path : string) : option (list (gmap string string)) :=
  if String.eqb path "short_row.csv" then
    Some [Demo.row "CF1" "01/01/1980" "2" "Radiologia";
          delete "NASCITA" (Demo.row "CF2" "01/01/1980" "1" "Radiologia");
          Demo.row "CF3" "15/09/2015" "1" "Radiologia"]
  else if String.eqb path "empty.csv" then Some []
  else Demo.demo_files path.

Definition env (offered : list string) : Env :=
  {| portal := Demo.demo_portal offered;
     now := mk_datetime 2024 6 1;
     relativedelta_years := Demo.years_between;
     strptime := Demo.demo_strptime;
     get_pnr_status := Demo.demo_status;
     check_pdf := fun _ _ _ => Ok ["E1"];
     files := sample_files |}.

End Samples.

(** * Properties *)

(** ** The logs as a monoid, and the rules of [yields] *)

Lemma app_world_empty_r w : w ⊕ empty_world = w.
Proof.
  destruct w; unfold app_world; cbn.
  by rewrite !app_nil_r, Nat.add_0_r.
Qed.

Lemma app_world_assoc a b c : a ⊕ (b ⊕ c) = a ⊕ b ⊕ c.
Proof. unfold app_world; cbn. by rewrite !app_assoc, Nat.add_assoc. Qed.

Lemma log_call_app c w : log_call c w = w ⊕ log_call c empty_world.
Proof.
  destruct w; unfold log_call, app_world; cbn.
  by rewrite !app_nil_r, Nat.add_0_r.
Qed.

Lemma log_phase_app ph acts w : log_phase ph acts w = w ⊕ log_phase ph acts empty_world.
Proof.
  destruct w; unfold log_phase, app_world; cbn.
  by rewrite !app_nil_r, Nat.add_0_r.
Qed.

Lemma log_added_app pd c w : log_added pd c w = w ⊕ log_added pd c empty_world.
Proof.
  destruct w; unfold log_added, app_world; cbn.
  by rewrite !app_nil_r, Nat.add_0_r.
Qed.

Lemma log_mail_app w : log_mail w = w ⊕ log_mail empty_world.
Proof.
  destruct w; unfold log_mail, app_world; cbn.
  by rewrite !app_nil_r, Nat.add_1_r.
Qed.

Lemma yields_ret {A} (a : A) (P : outcome A -> world -> Prop) :
  P (Ok a) empty_world -> yields (ret a) P.
Proof. intros H w. exists (Ok a), empty_world. by rewrite app_world_empty_r. Qed.

Lemma yields_raise {A} e (P : outcome A -> world -> Prop) :
  P (Raise e) empty_world -> yields (raise e) P.
Proof. intros H w. exists (Raise e), empty_world. by rewrite app_world_empty_r. Qed.

Lemma yields_lift {A} (o : outcome A) (P : outcome A -> world -> Prop) :
  P o empty_world -> yields (lift o) P.
Proof. intros H w. exists o, empty_world. by rewrite app_world_empty_r. Qed.

Lemma yields_bind {A B} (c : M A) (k : A -> M B) Q (P : outcome B -> world -> Prop) :
  yields c Q ->
  (forall a d1, Q (Ok a) d1 -> yields (k a) (fun o d2 => P o (d1 ⊕ d2))) ->
  (forall e d1, Q (Raise e) d1 -> P (Raise e) d1) ->
  yields (bind c k) P.
Proof.
  intros Hc Hk He w. destruct (Hc w) as (o & d1 & Heq & HQ).
  unfold bind. rewrite Heq. destruct o as [a|e].
  - destruct (Hk a d1 HQ (w ⊕ d1)) as (o2 & d2 & Heq2 & HP).
    exists o2, (d1 ⊕ d2). by rewrite app_world_assoc.
  - exists (Raise e), d1. eauto.
Qed.

Lemma yields_mono {A} (c : M A) (P Q : outcome A -> world -> Prop) :
  yields c P -> (forall o d, P o d -> Q o d) -> yields c Q.
Proof.
  intros Hc HPQ w. destruct (Hc w) as (o & d & Heq & HP). eauto.
Qed.

Lemma yields_call E c (P : outcome unit -> world -> Prop) :
  P (match fault (portal E) c with Some e => Raise e | None => Ok tt end)
    (log_call c empty_world) ->
  yields (webdriver_call E c) P.
Proof.
  intros H w. eexists _, _. split; [|exact H].
  unfold webdriver_call. by rewrite log_call_app.
Qed.

Lemma yields_execute self ph ctx comments
    (P : outcome (RuleEvaluationResult * list string) -> world -> Prop) :
  (let r := run_rules (rules_context (config_yaml self) ph) ctx
              {| passed := 0; actions := [] |} comments in
   P (Ok r) (log_phase ph (actions (fst r)) empty_world)) ->
  yields (execute self ph ctx comments) P.
Proof.
  intros H w. eexists _, _. split; [|exact H].
  unfold execute. by rewrite log_phase_app.
Qed.

Lemma yields_add_patient pd comment (P : outcome unit -> world -> Prop) :
  P (Ok tt) (log_added pd comment empty_world) ->
  yields (add_patient pd comment) P.
Proof.
  intros H w. eexists _, _. split; [|exact H].
  unfold add_patient. by rewrite log_added_app.
Qed.

(** ** Computations that only drive the webdriver *)

Lemma silent_empty ok : silent ok empty_world.
Proof. by repeat split. Qed.

Lemma silent_app ok d1 d2 : silent ok d1 -> silent ok d2 -> silent ok (d1 ⊕ d2).
Proof.
  intros (Hc1 & Ha1 & Hd1 & Hm1) (Hc2 & Ha2 & Hd2 & Hm2).
  unfold silent; cbn. rewrite forallb_app, Hc1, Hc2, Ha1, Ha2, Hd1, Hd2, Hm1, Hm2.
  done.
Qed.

Lemma silent_call ok c : ok c = true -> silent ok (log_call c empty_world).
Proof. intros H. unfold silent; cbn. by rewrite H. Qed.

Lemma silent_mono (ok ok' : call -> bool) d :
  (forall c, ok c = true -> ok' c = true) -> silent ok d -> silent ok' d.
Proof.
  intros Hok (Hc & Hrest). split; [|done].
  rewrite forallb_forall in *. eauto.
Qed.

Lemma only_calls_ret {A} ok (a : A) (R : A -> Prop) : R a -> only_calls ok (ret a) R.
Proof.
  intros H. apply yields_ret. split; [apply silent_empty|].
  by intros ? [= <-].
Qed.

Lemma only_calls_raise {A} ok e (R : A -> Prop) : only_calls ok (raise e) R.
Proof. apply yields_raise. split; [apply silent_empty|done]. Qed.

Lemma only_calls_lift {A} ok (o : outcome A) : only_calls ok (lift o) (fun a => o = Ok a).
Proof. apply yields_lift. split; [apply silent_empty|done]. Qed.

Lemma only_calls_bind {A B} ok (c : M A) (k : A -> M B) R1 (R2 : B -> Prop) :
  only_calls ok c R1 ->
  (forall a, R1 a -> only_calls ok (k a) R2) ->
  only_calls ok (bind c k) R2.
Proof.
  intros Hc Hk. eapply yields_bind; [exact Hc| |].
  - intros a d1 [Hs HR]. eapply yields_mono; [apply (Hk a); auto|].
    cbn. intros o d2 [Hs2 HR2]. split; [by apply silent_app|done].
  - intros e d1 [Hs _]. split; [done|]. intros a [=].
Qed.

Lemma only_calls_weaken {A} ok (c : M A) (R R' : A -> Prop) :
  only_calls ok c R -> (forall a, R a -> R' a) -> only_calls ok c R'.
Proof.
  intros Hc HR. eapply yields_mono; [exact Hc|].
  cbn. intros o d [Hs Ha]. split; [done|]. eauto.
Qed.

Lemma only_calls_mono {A} (ok ok' : call -> bool) (c : M A) R :
  (forall x, ok x = true -> ok' x = true) -> only_calls ok c R -> only_calls ok' c R.
Proof.
  intros Hok Hc. eapply yields_mono; [exact Hc|].
  cbn. intros o d [Hs Ha]. split; [by eapply silent_mono|done].
Qed.

Lemma only_calls_call E ok c :
  ok c = true -> only_calls ok (webdriver_call E c) (fun _ => True).
Proof.
  intros H. apply yields_call. split; [by apply silent_call|done].
Qed.

Lemma only_calls_getitem ok (d : pydict) key :
  only_calls ok (getitem d key) (fun v => d !! key = Some v).
Proof.
  unfold getitem. destruct (d !! key) as [v|].
  - by apply only_calls_ret.
  - apply only_calls_raise.
Qed.

Lemma only_calls_evaluate ok e ctx :
  only_calls ok (evaluate e ctx) (fun b => eval ctx e = Some (VBool b)).
Proof.
  unfold evaluate. destruct (eval ctx e) as [[]|]; try apply only_calls_raise.
  by apply only_calls_ret.
Qed.

Lemma only_calls_find_element E ok by_ value :
  ok (FindElement by_ value) = true ->
  only_calls ok (find_element E by_ value) (fun _ => True).
Proof.
  intros H. unfold find_element.
  eapply only_calls_bind; [by apply only_calls_call|].
  intros _ _. by apply only_calls_ret.
Qed.

Lemma only_calls_find_elements E ok by_ value :
  ok (FindElements by_ value) = true ->
  only_calls ok (find_elements E by_ value)
    (fun l => l = map (mk_element by_ value) (elements_text (portal E) by_ value)).
Proof.
  intros H. unfold find_elements.
  eapply only_calls_bind; [by apply only_calls_call|].
  intros _ _. by apply only_calls_ret.
Qed.

Lemma only_calls_post E ok url payload :
  ok (Post url payload) = true ->
  only_calls ok (webdriver_post E url payload)
    (fun reply => reply = reply_json (portal E) url payload).
Proof.
  intros H. unfold webdriver_post.
  eapply only_calls_bind; [by apply only_calls_call|].
  intros _ _. by apply only_calls_ret.
Qed.

Lemma only_calls_fetch_patient_data E ok pnr :
  ok (Get (url_cerca_quadro ++ pnr)) = true ->
  only_calls ok (fetch_patient_data E pnr)
    (fun html => html = page_text (portal E) (url_cerca_quadro ++ pnr)).
Proof.
  intros H. unfold fetch_patient_data, webdriver_get_text.
  eapply only_calls_bind; [by apply only_calls_call|].
  intros _ _. by apply only_calls_ret.
Qed.

Lemma only_calls_fetch_pic E ok pnr :
  ok (Post url_database (pic_payload pnr)) = true ->
  only_calls ok (_fetch_pic_from_database E pnr)
    (fun pic => first_numero_auth
                  (reply_json (portal E) url_database (pic_payload pnr)) = Ok pic).
Proof.
  intros H. unfold _fetch_pic_from_database.
  eapply only_calls_bind; [by apply only_calls_post|].
  intros reply ->. apply only_calls_lift.
Qed.

Lemma only_calls_select_item E ok codes :
  ok (FindElements By.CLASS_NAME "k-item") = true ->
  only_calls ok (select_item E codes) (fun _ => True).
Proof.
  intros H. induction codes as [|code rest IH]; cbn [select_item].
  - apply only_calls_raise.
  - eapply only_calls_bind; [by apply only_calls_find_elements|].
    intros items _. destruct (find_item items code); [by apply only_calls_ret|exact IH].
Qed.

(** ** The rule engine appends what it returns *)

Lemma run_rules_appends rs ctx res comments :
  exists acts,
    actions (fst (run_rules rs ctx res comments)) = actions res ++ acts /\
    snd (run_rules rs ctx res comments) = comments ++ acts.
Proof.
  revert res comments. induction rs as [|r rest IH]; intros res comments; cbn.
  - exists []. by rewrite !app_nil_r.
  - destruct (rule_matches ctx r); [|apply IH].
    destruct (IH {| passed := passed res + 1; actions := actions res ++ rule_actions r |}
                 (comments ++ rule_actions r)) as (acts & Ha & Hc).
    exists (rule_actions r ++ acts). cbn in Ha. by rewrite Ha, Hc, !app_assoc.
Qed.

Lemma run_rules_trail rs ctx comments :
  snd (run_rules rs ctx {| passed := 0; actions := [] |} comments)
  = comments ++ actions (fst (run_rules rs ctx {| passed := 0; actions := [] |} comments)).
Proof.
  destruct (run_rules_appends rs ctx {| passed := 0; actions := [] |} comments)
    as (acts & Ha & Hc).
  cbn in Ha. by rewrite Ha, Hc.
Qed.

(** ** The deal-breaker gate *)

(** C1. When the deal-breaker phase matches at least one rule on the record
    (with its age set), [process_patient] returns normally, having made no
    call on the webdriver, run no other phase, and handed to the report the
    record with ["pic"] set to [None] and, as its comment, the audit trail
    accumulated so far (the actions of that phase) joined by [" / "]. *)
Theorem deal_breaker_gate_finalizes_without_calls
    (E : Env) (self : ProcessPatients) (pd : pydict) (b : datetime) (w : world) :
  pd !! "birthday" = Some (VDate b) ->
  0 < passed (fst (gate self (with_age E pd b))) ->
  let r := gate self (with_age E pd b) in
  let record := <["pic" := VNone]> (with_age E pd b) in
  exists w',
    process_patient E self pd w = (Ok tt, w') /\
    calls w' = calls w /\
    audit w' = audit w ++ [(deal_breakers, actions (fst r))] /\
    added w' = added w ++ [(record, join " / " (snd r))] /\
    record !! "pic" = Some VNone /\
    snd r = actions (fst r).
Proof.
  intros Hb Hpos r record.
  assert (Htrail : snd r = actions (fst r)).
  { unfold r, gate. by rewrite run_rules_trail. }
  eexists. split.
  - unfold process_patient, bind, getitem, execute. rewrite Hb. cbn.
    fold (with_age E pd b). fold (gate self (with_age E pd b)).
    apply Z.ltb_lt in Hpos. rewrite Hpos. unfold add_patient. reflexivity.
  - cbn. fold r. rewrite Htrail. repeat split; try done.
    apply lookup_insert_eq.
Qed.

Lemma deal_breaker_gate_witness :
  exists w',
    process_patient (Demo.demo_env []) (Demo.demo_self "") (Demo.minor ["1"; "2"])
      empty_world = (Ok tt, w') /\
    calls w' = [] /\
    audit w' = [(deal_breakers, ["minor"])] /\
    map snd (added w') = ["minor"].
Proof.
  destruct (deal_breaker_gate_finalizes_without_calls
              (Demo.demo_env []) (Demo.demo_self "") (Demo.minor ["1"; "2"])
              (mk_datetime 2014 3 2) empty_world)
    as (w' & Hrun & Hcalls & Haudit & Hadded & _).
  - reflexivity.
  - vm_compute. reflexivity.
  - exists w'. rewrite Hadded. repeat split; assumption || reflexivity.
Defined.

(** ** The identifier lookup *)

(** C9. [_fetch_pic_from_database] posts one lookup and takes the first
    element of the ["Data"] list of the answer: an identifier it returns is
    the ["NumeroAuth"] of the first record, which therefore exists; when the
    list has a first record the lookup returns its identifier; when the list
    is empty the lookup raises [IndexError] and yields no identifier, not
    even [None]. *)
Theorem fetch_pic_takes_first_record (E : Env) (pnr : string) (w : world) :
  let request := Post url_database (pic_payload pnr) in
  let reply := reply_json (portal E) url_database (pic_payload pnr) in
  let r := _fetch_pic_from_database E pnr w in
  snd r = log_call request w /\
  (forall pic, fst r = Ok pic ->
     exists record rest,
       reply !! "Data" = Some (record :: rest) /\ record !! "NumeroAuth" = Some pic) /\
  (forall record rest pic,
     fault (portal E) request = None ->
     reply !! "Data" = Some (record :: rest) -> record !! "NumeroAuth" = Some pic ->
     fst r = Ok pic) /\
  (fault (portal E) request = None -> reply !! "Data" = Some [] ->
     fst r = Raise IndexError).
Proof.
  cbn zeta.
  unfold _fetch_pic_from_database, webdriver_post, bind, webdriver_call, lift, ret,
    first_numero_auth.
  destruct (fault (portal E) (Post url_database (pic_payload pnr))) as [e|];
    cbn [fst snd].
  - repeat split; try done.
  - split; [done|]. split; [|split].
    + intros pic.
      destruct (reply_json (portal E) url_database (pic_payload pnr) !! "Data")
        as [[|record rest]|]; try done.
      destruct (record !! "NumeroAuth") as [pic'|] eqn:Hpic; [|done].
      intros [= <-]. eauto.
    + intros record rest pic _ -> ->. done.
    + intros _ ->. done.
Qed.

Lemma fetch_pic_witness :
  fst (_fetch_pic_from_database (Demo.demo_env []) "E" empty_world) = Raise IndexError /\
  fst (_fetch_pic_from_database (Demo.demo_env []) "2" empty_world) = Ok (VStr "PIC-2").
Proof.
  split.
  - apply (fetch_pic_takes_first_record (Demo.demo_env []) "E" empty_world);
      reflexivity.
  - apply (proj1 (proj2 (proj2
             (fetch_pic_takes_first_record (Demo.demo_env []) "2" empty_world)))
             (<["NumeroAuth" := VStr "PIC-2"]> ∅) []);
      reflexivity.
Defined.

(** ** Parsing the hospital's file *)

Lemma convert_row_app E row pre items d :
  convert_row E row (pre ++ items) d =
  match convert_row E row pre d with
  | Ok d' => convert_row E row items d'
  | Raise e => Raise e
  end.
Proof.
  revert d. induction pre as [|item pre IH]; intros d; cbn; [done|].
  destruct (convert_item E row d item); [apply IH|done].
Qed.

Lemma convert_item_array E row d item :
  coltype item = "array" -> convert_item E row d item = Raise (NameError "ast").
Proof. intros H. unfold convert_item. by rewrite H. Qed.

Lemma convert_row_array E row pre item post d :
  coltype item = "array" ->
  convert_row E row (pre ++ item :: post) d =
  match convert_row E row pre d with
  | Ok _ => Raise (NameError "ast")
  | Raise e => Raise e
  end.
Proof.
  intros H. rewrite convert_row_app.
  destruct (convert_row E row pre d); [|done].
  cbn. by rewrite convert_item_array.
Qed.

(** C10, as the code has it.  With a column of type ["array"] in the
    mapping and at least one row in the file,
    [_parse_input_from_hospital] raises on the first row and returns no
    patient list; the exception is the [NameError] for [ast] whenever the
    columns ahead of the first list column convert on that row (otherwise it
    is the error of the first of those that does not). *)
Theorem array_column_never_parses
    (E : Env) (self : ProcessPatients) (path : string)
    (pre post : list column) (item : column)
    (row : gmap string string) (rest : list (gmap string string)) (w : world) :
  mapping_csv (config_yaml self) = pre ++ item :: post ->
  coltype item = "array" ->
  files E path = Some (row :: rest) ->
  (exists e, _parse_input_from_hospital E self path w = (Raise e, w)) /\
  (forall d, convert_row E row pre ∅ = Ok d ->
     _parse_input_from_hospital E self path w = (Raise (NameError "ast"), w)).
Proof.
  intros Hmap Harr Hfile.
  unfold _parse_input_from_hospital, lift. rewrite Hfile. cbn [convert_rows].
  rewrite Hmap, (convert_row_array E row pre item post ∅ Harr).
  destruct (convert_row E row pre ∅) as [d|e]; split; eauto; intros ? [=].
Qed.

Lemma array_column_witness :
  _parse_input_from_hospital (Demo.demo_env [])
    (Demo.self_with_mapping Demo.array_mapping) "two.csv" empty_world
  = (Raise (NameError "ast"), empty_world).
Proof.
  eapply (proj2 (array_column_never_parses (Demo.demo_env [])
                   (Demo.self_with_mapping Demo.array_mapping) "two.csv"
                   [mk_column "string" "codice_fiscale" "CF" None] []
                   (mk_column "array" "pnr" "PNR" None) _ _ empty_world
                   eq_refl eq_refl eq_refl)).
  reflexivity.
Defined.

(** C10, as the specification states it, fails: behind a column of an unknown type
    the list column is never reached, and the first row raises the
    [ValueError] of the unknown type instead of a [NameError]. *)
Lemma array_column_behind_unknown_type :
  let self := Demo.self_with_mapping Demo.mixed_mapping in
  (exists item, item ∈ mapping_csv (config_yaml self) /\ coltype item = "array") /\
  (exists row rest, files (Demo.demo_env []) "two.csv" = Some (row :: rest)) /\
  _parse_input_from_hospital (Demo.demo_env []) self "two.csv" empty_world
    = (Raise (ValueError msg_unknown_type), empty_world) /\
  ~ (exists name w',
       _parse_input_from_hospital (Demo.demo_env []) self "two.csv" empty_world
       = (Raise (NameError name), w')).
Proof.
  cbn zeta. split; [|split; [|split]].
  - exists (mk_column "array" "pnr" "PNR" None). split; [|reflexivity].
    unfold Demo.self_with_mapping, Demo.mixed_mapping; cbn. set_solver.
  - eexists _, _. reflexivity.
  - reflexivity.
  - intros (name & w' & H). vm_compute in H. discriminate H.
Qed.

(** ** Credentials *)

(** With an empty user name or an empty password, [login] raises before any
    call is made. *)
Lemma login_rejects_empty_credentials E self w :
  username self = VStr "" \/ password self = VStr "" ->
  login E self w = (Raise (ValueError msg_login), w).
Proof.
  intros H. unfold login.
  destruct H as [-> | ->]; cbn; [done|].
  by rewrite orb_true_r.
Qed.

(** So does the batch: once the file is parsed the run stops in [login],
    with no patient processed. *)
Lemma process_patients_rejects_empty_credentials E self w patients :
  username self = VStr "" \/ password self = VStr "" ->
  _parse_input_from_hospital E self (path_file_input self) w = (Ok patients, w) ->
  process_patients E self w = (Raise (ValueError msg_login), w).
Proof.
  intros H Hparse. unfold process_patients, bind.
  by rewrite Hparse, (login_rejects_empty_credentials E self w H).
Qed.

(** C8, at the failing input.  With HEALTHFORCE_XWYZ_USERNAME absent from
    the environment, [os.getenv] gives [None], which is not the empty
    string: [login] raises nothing, posts the form twice with a [None] user
    name, and the batch goes on to process its patients. *)
Theorem login_accepts_unset_username :
  let E := Demo.demo_env ["Altre prestazioni"] in
  let self := Demo.self_of_environ Demo.environ_without_username "two.csv" in
  let form := [("UserName", VNone); ("Password", VStr "secret")] in
  username self = VNone /\
  (exists reply,
     login E self empty_world = (Ok reply, log_call (Post url_login form)
                                            (log_call (Post url_login form) empty_world))) /\
  (exists w', process_patients E self empty_world = (Ok tt, w') /\
     map (fun p => fst p !! "codice_fiscale") (added w')
       = [Some (VStr "CF1"); Some (VStr "CF3")]).
Proof.
  cbn zeta. split; [reflexivity|]. split.
  - eexists. vm_compute. reflexivity.
  - eexists. split; [reflexivity|]. vm_compute. reflexivity.
Qed.

(** ** The batch when a patient fails *)

(** C3, at the failing input.  Of three patients the second fails on its
    page fetch: the exception leaves [process_patients], and
    [self.webdriver.quit()] is never called, although the first patient
    went through the session. *)
Theorem session_left_open_on_failure :
  let r := process_patients (Demo.demo_env ["Altre prestazioni"])
             (Demo.demo_self "three.csv") empty_world in
  fst r = Raise (PortalError "timeout") /\
  existsb is_quit (calls (snd r)) = false /\
  length (calls (snd r)) = 6%nat /\
  mails (snd r) = 0%nat.
Proof. cbn zeta. repeat split; vm_compute; reflexivity. Qed.

(** C2, as the specification states it, fails: with the second of three patients
    raising on its page fetch, the run ends with that exception; the output
    holds the first patient's record only, nothing at all for the second
    and the third. *)
Lemma batch_failure_not_isolated :
  let r := process_patients (Demo.demo_env ["Altre prestazioni"])
             (Demo.demo_self "three.csv") empty_world in
  fst r = Raise (PortalError "timeout") /\
  map (fun p => fst p !! "codice_fiscale") (added (snd r)) = [Some (VStr "CF1")] /\
  ~ (exists w', r = (Ok tt, w') /\ length (added w') = 3%nat).
Proof.
  cbn zeta. repeat split; try (vm_compute; reflexivity).
  intros (w' & H & _). vm_compute in H. discriminate H.
Qed.

(** ** The accept-request procedure *)

Ltac accept_call Hok :=
  first
    [ apply only_calls_call; apply Hok; reflexivity
    | apply only_calls_find_element; apply Hok; reflexivity
    | eapply only_calls_weaken;
        [apply only_calls_find_elements; apply Hok; reflexivity | done]
    | apply only_calls_select_item; apply Hok; reflexivity ].

Lemma only_calls_accept E ok pnr esame prestazioni :
  (forall c, is_accept c = true -> ok c = true) ->
  only_calls ok (_check_request_accepted E pnr esame prestazioni) (fun _ => True).
Proof.
  intros Hok. unfold _check_request_accepted.
  do 13 (eapply only_calls_bind; [accept_call Hok | intros ? _]).
  eapply only_calls_bind; [accept_call Hok | intros found _].
  eapply only_calls_bind with (R1 := fun _ => True).
  { destruct found; [apply only_calls_raise | by apply only_calls_ret]. }
  intros message _.
  do 5 (eapply only_calls_bind; [accept_call Hok | intros ? _]).
  accept_call Hok.
Qed.

Lemma only_calls_yields {A} ok (c : M A) R (P : outcome A -> world -> Prop) :
  only_calls ok c R ->
  (forall o d, silent ok d -> (forall a, o = Ok a -> R a) -> P o d) ->
  yields c P.
Proof.
  intros Hc HP. eapply yields_mono; [exact Hc|].
  cbn. intros o d [Hs HR]. auto.
Qed.

(** The procedure opens with the selenium page of the request, and all its
    calls are on the selenium side. *)
Lemma accept_yields E pnr esame prestazioni :
  yields (_check_request_accepted E pnr esame prestazioni) (fun _ d =>
    exists la, calls d = GetSelenium url_identify_patient :: la /\
               forallb is_accept la = true /\
               audit d = [] /\ added d = [] /\ mails d = 0%nat).
Proof.
  unfold _check_request_accepted.
  eapply yields_bind
    with (Q := fun _ d => d = log_call (GetSelenium url_identify_patient) empty_world).
  - by apply yields_call.
  - intros [] d1 ->. eapply (only_calls_yields is_accept _ (fun _ => True)).
    + assert (Hok : forall c, is_accept c = true -> is_accept c = true) by auto.
      do 12 (eapply only_calls_bind; [accept_call Hok | intros ? _]).
      eapply only_calls_bind; [accept_call Hok | intros found _].
      eapply only_calls_bind with (R1 := fun _ => True).
      { destruct found; [apply only_calls_raise | by apply only_calls_ret]. }
      intros message _.
      do 5 (eapply only_calls_bind; [accept_call Hok | intros ? _]).
      accept_call Hok.
    + intros o d2 (Hc & Ha & Hd & Hm) _. exists (calls d2). cbn.
      by rewrite Ha, Hd, Hm.
  - intros e d1 ->. by exists [].
Qed.

(** ** Stepping through a sequence *)

Lemma bind_ok {A B} (c : M A) (k : A -> M B) w a w' :
  c w = (Ok a, w') -> bind c k w = k a w'.
Proof. intros H. unfold bind. by rewrite H. Qed.

Lemma bind_raise {A B} (c : M A) (k : A -> M B) w e w' :
  c w = (Raise e, w') -> bind c k w = (Raise e, w').
Proof. intros H. unfold bind. by rewrite H. Qed.

Lemma bind_assoc {A B C} (c : M A) (k1 : A -> M B) (k2 : B -> M C) w :
  bind (bind c k1) k2 w = bind c (fun a => bind (k1 a) k2) w.
Proof. unfold bind. by destruct (c w) as [[a|e] w']. Qed.

Lemma call_ok E c w :
  fault (portal E) c = None -> webdriver_call E c w = (Ok tt, log_call c w).
Proof. intros H. unfold webdriver_call. by rewrite H. Qed.

Lemma find_element_ok E by_ value w :
  fault (portal E) (FindElement by_ value) = None ->
  find_element E by_ value w
  = (Ok (mk_element by_ value ""), log_call (FindElement by_ value) w).
Proof.
  intros H. unfold find_element. by rewrite (bind_ok _ _ _ _ _ (call_ok E _ w H)).
Qed.

Lemma find_elements_ok E by_ value w :
  fault (portal E) (FindElements by_ value) = None ->
  find_elements E by_ value w
  = (Ok (map (mk_element by_ value) (elements_text (portal E) by_ value)),
     log_call (FindElements by_ value) w).
Proof.
  intros H. unfold find_elements. by rewrite (bind_ok _ _ _ _ _ (call_ok E _ w H)).
Qed.

Lemma getitem_ok (d : pydict) key v w :
  d !! key = Some v -> getitem d key w = (Ok v, w).
Proof. intros H. unfold getitem. by rewrite H. Qed.

Lemma getitem_raise (d : pydict) key w :
  d !! key = None -> getitem d key w = (Raise (KeyError key), w).
Proof. intros H. unfold getitem. by rewrite H. Qed.

(** ** The category search *)

Lemma find_item_offered by_ value offered code :
  find_item (map (mk_element by_ value) offered) code =
  match code with
  | VStr text =>
      if bool_decide (text ∈ offered) then Some (mk_element by_ value text) else None
  | _ => None
  end.
Proof.
  induction offered as [|t offered IH]; cbn.
  - by destruct code.
  - destruct code as [| | |text| |]; cbn;
      try (rewrite bool_decide_eq_false_2 by done; rewrite IH; done).
    destruct (decide (t = text)) as [->|Hne].
    + rewrite bool_decide_eq_true_2 by done.
      by rewrite bool_decide_eq_true_2 by (apply elem_of_cons; auto).
    + rewrite bool_decide_eq_false_2 by congruence. rewrite IH.
      assert (Hiff : text ∈ t :: offered <-> text ∈ offered).
      { rewrite elem_of_cons. split; [intros [?|?]; congruence|auto]. }
      by rewrite (bool_decide_ext _ _ Hiff).
Qed.

Lemma select_item_first_present E codes w :
  fault (portal E) (FindElements By.CLASS_NAME "k-item") = None ->
  fst (select_item E codes w) =
  match first_present codes (elements_text (portal E) By.CLASS_NAME "k-item") with
  | Some text => Ok (mk_element By.CLASS_NAME "k-item" text)
  | None => Raise (ValueError msg_prestazioni)
  end.
Proof.
  intros Hf. revert w. induction codes as [|code rest IH]; intros w; cbn [select_item].
  - done.
  - rewrite (bind_ok _ _ _ _ _ (find_elements_ok E _ _ w Hf)).
    rewrite find_item_offered. cbn [first_present].
    destruct code; try apply IH.
    destruct (bool_decide _); [done|apply IH].
Qed.

Ltac step_ok Hnf :=
  first
    [ erewrite bind_ok by (apply call_ok; apply Hnf; reflexivity)
    | erewrite bind_ok by (apply find_element_ok; apply Hnf; reflexivity) ];
  cbv beta.

Lemma accept_raises_without_category E pnr esame code w :
  (forall c, is_accept c = true -> fault (portal E) c = None) ->
  first_present (codes_to_try code)
    (elements_text (portal E) By.CLASS_NAME "k-item") = None ->
  fst (_check_request_accepted E pnr esame code w) = Raise (ValueError msg_prestazioni).
Proof.
  intros Hnf Hnone. unfold _check_request_accepted.
  do 9 step_ok Hnf.
  match goal with
  | |- context [bind (select_item E ?codes) ?k ?w0] =>
      pose proof (select_item_first_present E codes w0
                    (Hnf (FindElements By.CLASS_NAME "k-item") eq_refl)) as Hsel;
      destruct (select_item E codes w0) as [o w1] eqn:Hrun
  end.
  rewrite Hnone in Hsel. cbn in Hsel. subst o.
  by rewrite (bind_raise _ _ _ _ _ Hrun).
Qed.

(** ** The batch loop stops at the first exception *)

Lemma for_each_raise {A} (f : A -> M unit) pre p post e w1 w2 w3 :
  for_each pre f w1 = (Ok tt, w2) ->
  f p w2 = (Raise e, w3) ->
  for_each (pre ++ p :: post) f w1 = (Raise e, w3).
Proof.
  revert w1. induction pre as [|x pre IH]; intros w1 Hpre Hp; cbn in *.
  - injection Hpre as <-. by rewrite (bind_raise _ _ _ _ _ Hp).
  - unfold bind in *. destruct (f x w1) as [[[]|e'] w']; [|done]. by apply IH.
Qed.

Lemma process_patients_stops E self pre p post e reply w0 w1 w2 w3 :
  _parse_input_from_hospital E self (path_file_input self) w0
    = (Ok (pre ++ p :: post), w0) ->
  login E self w0 = (Ok reply, w1) ->
  for_each pre (process_patient E self) w1 = (Ok tt, w2) ->
  process_patient E self p w2 = (Raise e, w3) ->
  process_patients E self w0 = (Raise e, w3).
Proof.
  intros Hparse Hlogin Hpre Hp. unfold process_patients.
  rewrite (bind_ok _ _ _ _ _ Hparse), (bind_ok _ _ _ _ _ Hlogin).
  by rewrite (bind_raise _ _ _ _ _ (for_each_raise _ pre p post e w1 w2 w3 Hpre Hp)).
Qed.

(** C5, as the code has it.  With no selenium call failing, the category
    search returns the first of the requested category, "Visite
    specialistiche" and "Altre prestazioni" that the portal offers, and
    raises [ValueError] when it offers none of the three, as then does the
    whole accept-request procedure.  Nothing catches that exception: when
    it leaves [process_patient] for some patient, it leaves
    [process_patients] at once, in the state it was raised in. *)
Theorem category_selection_policy
    (E : Env) (self : ProcessPatients) (pnr : string) (esame code : pyval) (w : world) :
  let offered := elements_text (portal E) By.CLASS_NAME "k-item" in
  let wanted := first_present (codes_to_try code) offered in
  (forall c, is_accept c = true -> fault (portal E) c = None) ->
  fst (select_item E (codes_to_try code) w)
    = match wanted with
      | Some text => Ok (mk_element By.CLASS_NAME "k-item" text)
      | None => Raise (ValueError msg_prestazioni)
      end /\
  (wanted = None ->
     fst (_check_request_accepted E pnr esame code w)
       = Raise (ValueError msg_prestazioni)) /\
  (forall pre p post reply w0 w1 w2 w3,
     _parse_input_from_hospital E self (path_file_input self) w0
       = (Ok (pre ++ p :: post), w0) ->
     login E self w0 = (Ok reply, w1) ->
     for_each pre (process_patient E self) w1 = (Ok tt, w2) ->
     process_patient E self p w2 = (Raise (ValueError msg_prestazioni), w3) ->
     process_patients E self w0 = (Raise (ValueError msg_prestazioni), w3)).
Proof.
  intros offered wanted Hnf. split; [|split].
  - apply select_item_first_present. by apply Hnf.
  - intros Hnone. by apply accept_raises_without_category.
  - intros pre p post reply w0 w1 w2 w3. apply process_patients_stops.
Qed.

Lemma demo_selenium_never_fails offered c :
  is_accept c = true -> fault (portal (Demo.demo_env offered)) c = None.
Proof. by destruct c. Qed.

Lemma category_selection_witness :
  fst (select_item (Demo.demo_env ["Altre prestazioni"])
         (codes_to_try (VStr "Radiologia")) empty_world)
    = Ok (mk_element By.CLASS_NAME "k-item" "Altre prestazioni") /\
  fst (_check_request_accepted (Demo.demo_env ["Odontoiatria"]) "1"
         (VStr "RX torace") (VStr "Radiologia") empty_world)
    = Raise (ValueError msg_prestazioni).
Proof.
  split.
  - apply (proj1 (category_selection_policy (Demo.demo_env ["Altre prestazioni"])
                    (Demo.demo_self "two.csv") "1" (VStr "RX torace")
                    (VStr "Radiologia") empty_world
                    (demo_selenium_never_fails _))).
  - apply (proj1 (proj2 (category_selection_policy (Demo.demo_env ["Odontoiatria"])
                    (Demo.demo_self "two.csv") "1" (VStr "RX torace")
                    (VStr "Radiologia") empty_world
                    (demo_selenium_never_fails _)))).
    reflexivity.
Defined.

(** C5, as the specification states it, fails on its last part: with none of the
    three categories offered, the [ValueError] raised for the first patient
    ends the whole batch; the second patient, whom the deal-breaker gate
    would have finalized without any call, gets no record, the session is
    not closed and no mail is sent. *)
Lemma missing_category_aborts_batch :
  let E := Demo.demo_env ["Odontoiatria"] in
  let r := process_patients E (Demo.demo_self "two.csv") empty_world in
  first_present (codes_to_try (VStr "Radiologia"))
    (elements_text (portal E) By.CLASS_NAME "k-item") = None /\
  fst r = Raise (ValueError msg_prestazioni) /\
  added (snd r) = [] /\
  existsb is_quit (calls (snd r)) = false /\
  mails (snd r) = 0%nat /\
  ~ (exists w', r = (Ok tt, w')).
Proof.
  cbn zeta. repeat split; try (vm_compute; reflexivity).
  intros (w' & H). vm_compute in H. discriminate H.
Qed.

(** ** Threading the audit trail *)

Lemma flat_app la lb : flat (la ++ lb) = flat la ++ flat lb.
Proof. unfold flat. by rewrite map_app, concat_app. Qed.

Lemma tracked_ret {A} comments (R : A -> Prop) (a : A) :
  R a -> yields (ret (a, comments)) (tracked comments R).
Proof.
  intros H. apply yields_ret. do 3 (split; [done|]).
  intros a' c' [= <- <-]. cbn. by rewrite app_nil_r.
Qed.

Lemma tracked_silent_bind {A B} (c : M A) (k : A -> M (B * list string))
    R1 comments (R : B -> Prop) :
  only_calls not_quit c R1 ->
  (forall a, R1 a -> yields (k a) (tracked comments R)) ->
  yields (bind c k) (tracked comments R).
Proof.
  intros Hc Hk. eapply yields_bind; [exact Hc| |].
  - intros a d1 [(Hc1 & Ha1 & Hd1 & Hm1) HR].
    eapply yields_mono; [apply (Hk a); auto|].
    intros o d2 (Hc2 & Hd2 & Hm2 & Hrest). unfold tracked; cbn.
    by rewrite forallb_app, Hc1, Hc2, Ha1, Hd1, Hm1, Hd2, Hm2.
  - intros e d1 [(Hc1 & Ha1 & Hd1 & Hm1) _]. by repeat split.
Qed.

Lemma tracked_execute_bind {B} self ph ctx comments
    (k : RuleEvaluationResult * list string -> M (B * list string)) (R : B -> Prop) :
  (forall r, yields (k r) (tracked (snd r) R)) ->
  yields (bind (execute self ph ctx comments) k) (tracked comments R).
Proof.
  intros Hk.
  eapply yields_bind
    with (Q := fun o d =>
           let r := run_rules (rules_context (config_yaml self) ph) ctx
                      {| passed := 0; actions := [] |} comments in
           o = Ok r /\ d = log_phase ph (actions (fst r)) empty_world).
  - by apply yields_execute.
  - intros r d1 [[= ->] ->]. eapply yields_mono; [apply Hk|].
    intros o d2 (Hc2 & Hd2 & Hm2 & Hrest). unfold tracked; cbn.
    do 3 (split; [done|]). intros b c' Heq.
    destruct (Hrest b c' Heq) as [-> HR]. split; [|done].
    rewrite run_rules_trail. unfold flat; cbn. by rewrite app_assoc.
  - intros e d1 [[=] _].
Qed.

Lemma tracked_bind {A B} (c : M (A * list string))
    (k : A * list string -> M (B * list string)) comments R1 (R2 : B -> Prop) :
  yields c (tracked comments R1) ->
  (forall a c1, R1 a -> yields (k (a, c1)) (tracked c1 R2)) ->
  yields (bind c k) (tracked comments R2).
Proof.
  intros Hc Hk. eapply yields_bind; [exact Hc| |].
  - intros [a c1] d1 (Hc1 & Hd1 & Hm1 & Hrest1).
    destruct (Hrest1 a c1 eq_refl) as [-> HR1].
    eapply yields_mono; [by apply Hk|].
    intros o d2 (Hc2 & Hd2 & Hm2 & Hrest2). unfold tracked, app_world.
    cbn [calls audit added mails].
    rewrite forallb_app, Hc1, Hc2, Hd1, Hm1, Hd2, Hm2. do 3 (split; [done|]).
    intros b c' Heq. destruct (Hrest2 b c' Heq) as [-> HR2]. split; [|done].
    by rewrite flat_app, app_assoc.
  - intros e d1 (Hc1 & Hd1 & Hm1 & _). by repeat split.
Qed.

Lemma eval_status_in_1_2 (pd : pydict) st :
  eval (<["pnr_status" := VInt st]> pd) rule_status_in_1_2
  = Some (VBool (bool_decide (st = 1 \/ st = 2))).
Proof.
  cbn. rewrite lookup_insert_eq. do 2 f_equal.
  apply bool_decide_ext. rewrite !elem_of_cons, elem_of_nil.
  split.
  - intros [[= ->]|[[= ->]|[]]]; auto.
  - intros [->| ->]; auto.
Qed.

Lemma eval_status_is_1 (pd : pydict) st :
  eval (<["pnr_status" := VInt st]> pd) rule_status_is_1
  = Some (VBool (bool_decide (st = 1))).
Proof.
  cbn. rewrite lookup_insert_eq. cbn. do 2 f_equal.
  apply bool_decide_ext. split; [by intros [= ->]|by intros ->].
Qed.

(** What [process_pnr] leaves in the record and in the audit trail. *)
Lemma process_pnr_spec E self pd pnr comments :
  yields (process_pnr E self pd pnr comments) (tracked comments (pnr_outcome E pnr)).
Proof.
  unfold process_pnr.
  eapply tracked_silent_bind;
    [by apply only_calls_fetch_patient_data|].
  intros html ->. fold (resolved_status E pnr).
  eapply tracked_silent_bind; [apply only_calls_evaluate|].
  intros actionable Hact. rewrite eval_status_in_1_2 in Hact.
  injection Hact as <-.
  eapply tracked_bind with (R1 := pnr_outcome E pnr).
  - case_bool_decide as Hst.
    + eapply tracked_silent_bind; [apply only_calls_evaluate|].
      intros awaiting _.
      eapply tracked_silent_bind with (R1 := fun _ => True).
      { destruct awaiting; [|by apply only_calls_ret].
        eapply only_calls_bind; [apply only_calls_getitem|intros esame _].
        eapply only_calls_bind; [apply only_calls_getitem|intros prestazioni _].
        apply only_calls_accept. by intros []. }
      intros _ _.
      eapply tracked_silent_bind; [by apply only_calls_fetch_pic|].
      intros pic Hpic.
      eapply tracked_silent_bind; [by apply only_calls_call|].
      intros _ _.
      eapply tracked_silent_bind; [apply only_calls_getitem|].
      intros insurance_name _.
      eapply tracked_silent_bind; [apply only_calls_getitem|].
      intros fiscal_code _.
      eapply tracked_silent_bind; [apply only_calls_lift|].
      intros error_codes _.
      apply tracked_execute_bind. intros r1.
      apply tracked_execute_bind. intros r2.
      apply tracked_ret. repeat split.
      * rewrite lookup_insert_ne by done. apply lookup_insert_eq.
      * intros _. exists pic. split; [done|apply lookup_insert_eq].
      * intros H1 H2. by destruct Hst.
    + apply tracked_ret. repeat split.
      * rewrite lookup_insert_ne by done. apply lookup_insert_eq.
      * intros H. by destruct Hst.
      * intros _ _. apply lookup_insert_eq.
  - intros pd' c1 Hout. apply tracked_execute_bind. intros r3.
    by apply tracked_ret.
Qed.

(** ** The reference loop and the whole patient *)

Lemma last_ref_some r rest : exists x, last_ref (r :: rest) = Some x.
Proof.
  revert r. induction rest as [|r' rest IH]; intros r; [by exists r|].
  exact (IH r').
Qed.

Lemma reference_loop_spec E self refs : forall pd comments,
  yields (for_fold refs (fun s pnr => process_pnr E self (fst s) pnr (snd s))
            (pd, comments))
    (tracked comments (fun record =>
       match last_ref refs with
       | Some r => pnr_outcome E r record
       | None => record = pd
       end)).
Proof.
  induction refs as [|r rest IH]; intros pd comments; cbn [for_fold].
  - by apply tracked_ret.
  - eapply tracked_bind; [apply process_pnr_spec|].
    intros pd1 c1 Hout. eapply yields_mono; [apply IH|].
    intros o d (Hc & Hd & Hm & Hrest). do 3 (split; [done|]).
    intros record c' Heq. destruct (Hrest record c' Heq) as [-> HR].
    split; [done|]. destruct rest as [|r' rest']; [cbn in *; by subst|].
    change (last_ref (r :: r' :: rest')) with (last_ref (r' :: rest')).
    destruct (last_ref_some r' rest') as [x Hx]. by rewrite Hx in *.
Qed.

Lemma yields_execute_eq self ph ctx comments :
  yields (execute self ph ctx comments) (fun o d =>
    o = Ok (run_rules (rules_context (config_yaml self) ph) ctx
              {| passed := 0; actions := [] |} comments) /\
    d = log_phase ph
          (actions (fst (run_rules (rules_context (config_yaml self) ph) ctx
                           {| passed := 0; actions := [] |} comments)))
          empty_world).
Proof. by apply yields_execute. Qed.

Lemma only_calls_iterate ok v :
  only_calls ok (iterate v) (fun l => v = VList l \/ exists s, v = VStr s).
Proof.
  destruct v; cbn; try apply only_calls_raise; apply only_calls_ret; eauto.
Qed.

(** What [process_patient] hands to the report: nothing when it raises;
    when it returns, one record, whose comment joins the actions of the
    phases it ran and whose status and identifier are those of the last
    reference of the list (when the gate let the patient through).  It
    never closes the session. *)
Lemma process_patient_spec E self pd :
  yields (process_patient E self pd) (fun o d =>
    forallb not_quit (calls d) = true /\
    mails d = 0%nat /\
    match o with
    | Raise _ => added d = []
    | Ok _ =>
        exists record,
          added d = [(record, join " / " (flat (audit d)))] /\
          forall b refs,
            pd !! "birthday" = Some (VDate b) ->
            pd !! "pnr" = Some (VList refs) ->
            passed (fst (gate self (with_age E pd b))) <= 0 ->
            match last_ref refs with
            | Some r => pnr_outcome E r record
            | None => True
            end
    end).
Proof.
  unfold process_patient.
  eapply yields_bind; [apply (only_calls_getitem not_quit)| |].
  2: { intros e d1 [(Hc1 & _ & Hd1 & Hm1) _]. done. }
  intros birthday d1 [(Hc1 & Ha1 & Hd1 & Hm1) Hb]. specialize (Hb _ eq_refl).
  eapply yields_bind
    with (Q := fun o d => d = empty_world /\
                 forall age, o = Ok age ->
                   exists b, birthday = VDate b /\ age = relativedelta_years E (now E) b).
  { destruct birthday; try (by apply yields_raise); apply yields_ret.
    split; [done|]. intros age [= <-]. eauto. }
  2: { intros e d2 [-> _]. cbn. by rewrite app_nil_r, Hc1, Hd1, Hm1. }
  intros age d2 [-> Hage]. destruct (Hage _ eq_refl) as (b & -> & ->).
  fold (with_age E pd b).
  eapply yields_bind; [apply yields_execute_eq| |].
  2: { intros e d3 [[=] _]. }
  intros r d3 [[= ->] ->]. fold (gate self (with_age E pd b)).
  destruct (Z.ltb 0 (passed (fst (gate self (with_age E pd b))))) eqn:Hgate.
  - apply yields_add_patient. cbn. rewrite !app_nil_r, Hc1, Ha1, Hd1, Hm1. cbn.
    do 2 (split; [done|]). eexists. split.
    + unfold flat; cbn. by rewrite app_nil_r.
    + intros b' refs Hb' _ Hle. rewrite Hb in Hb'. injection Hb' as <-.
      apply Z.ltb_lt in Hgate. lia.
  - eapply yields_bind; [apply (only_calls_getitem not_quit)| |].
    2: { intros e d4 [(Hc4 & _ & Hd4 & Hm4) _]. cbn.
         by rewrite !forallb_app, Hc1, Hc4, Hd1, Hm1, Hd4, Hm4. }
    intros v d4 [(Hc4 & Ha4 & Hd4 & Hm4) Hv]. specialize (Hv _ eq_refl).
    unfold with_age in Hv. rewrite lookup_insert_ne in Hv by done.
    eapply yields_bind; [apply (only_calls_iterate not_quit)| |].
    2: { intros e d5 [(Hc5 & _ & Hd5 & Hm5) _]. cbn.
         by rewrite !forallb_app, Hc1, Hc4, Hc5, Hd1, Hm1, Hd4, Hm4, Hd5, Hm5. }
    intros refs d5 [(Hc5 & Ha5 & Hd5 & Hm5) Hrefs]. specialize (Hrefs _ eq_refl).
    eapply yields_bind; [apply reference_loop_spec| |].
    2: { intros e d6 (Hc6 & Hd6 & Hm6 & _). cbn.
         by rewrite !forallb_app, Hc1, Hc4, Hc5, Hc6, Hd1, Hm1, Hd4, Hm4, Hd5, Hm5,
              Hd6, Hm6. }
    intros [record c'] d6 (Hc6 & Hd6 & Hm6 & Hloop).
    destruct (Hloop record c' eq_refl) as [-> Hlast].
    apply yields_add_patient. cbn.
    rewrite !forallb_app, Hc1, Hc4, Hc5, Hc6, Ha1, Hd1, Hm1, Ha4, Hd4, Hm4, Ha5,
      Hd5, Hm5, Hd6, Hm6. cbn.
    do 2 (split; [done|]). eexists. split.
    + rewrite app_nil_r. unfold gate. by rewrite run_rules_trail.
    + intros b' refs' _ Hpnr _. rewrite Hv in Hpnr. injection Hpnr as ->.
      destruct Hrefs as [[= ->]|[s [=]]].
      by destruct (last_ref refs).
Qed.

(** C6.  When [process_patient] returns, it has handed exactly one record
    to the report, and the comment of that record is the concatenation, in
    the order of execution, of the actions produced by the rule phases run
    for this patient, joined by [" / "]. *)
Theorem comment_joins_executed_actions
    (E : Env) (self : ProcessPatients) (pd : pydict) (w w' : world) :
  process_patient E self pd w = (Ok tt, w') ->
  exists phases record,
    audit w' = audit w ++ phases /\
    added w' = added w ++ [(record, join " / " (flat phases))].
Proof.
  intros Hrun.
  destruct (process_patient_spec E self pd w) as (o & d & Heq & _ & _ & Ho).
  rewrite Heq in Hrun. injection Hrun as -> <-.
  destruct Ho as (record & Hadded & _).
  exists (audit d), record. cbn. by rewrite Hadded.
Qed.

Lemma comment_joins_witness :
  let run := process_patient (Demo.demo_env ["Altre prestazioni"]) (Demo.demo_self "")
               (Demo.adult ["2"; "1"]) empty_world in
  exists phases record,
    audit (snd run) = audit empty_world ++ phases /\
    added (snd run) = added empty_world ++ [(record, join " / " (flat phases))].
Proof.
  apply (comment_joins_executed_actions
           (Demo.demo_env ["Altre prestazioni"]) (Demo.demo_self "")
           (Demo.adult ["2"; "1"]) empty_world).
  vm_compute. reflexivity.
Defined.

Example demo_comment :
  map snd (added (snd (process_patient (Demo.demo_env ["Altre prestazioni"])
                         (Demo.demo_self "") (Demo.adult ["2"; "1"]) empty_world)))
  = ["insurer known / document unreadable / insurer known / document unreadable / accepted by hand"].
Proof. vm_compute. reflexivity. Qed.

(** The actions a phase returns are those of its matching rules, in rule
    order. *)
Lemma run_rules_actions rs ctx res comments :
  actions (fst (run_rules rs ctx res comments))
  = actions res ++ concat (map rule_actions (List.filter (rule_matches ctx) rs)).
Proof.
  revert res comments. induction rs as [|r rest IH]; intros res comments; cbn.
  - by rewrite app_nil_r.
  - destruct (rule_matches ctx r); rewrite IH; cbn; [|done].
    by rewrite app_assoc.
Qed.

(** ** Several references: the last one is what the record shows *)

(** After the loop, whatever the list, the record carries the status and
    the identifier of its last reference. *)
Lemma last_reference_wins E self pd b refs r w w' :
  pd !! "birthday" = Some (VDate b) ->
  pd !! "pnr" = Some (VList refs) ->
  passed (fst (gate self (with_age E pd b))) <= 0 ->
  last_ref refs = Some r ->
  process_patient E self pd w = (Ok tt, w') ->
  exists record comment,
    added w' = added w ++ [(record, comment)] /\ pnr_outcome E r record.
Proof.
  intros Hb Hpnr Hgate Hlast Hrun.
  destruct (process_patient_spec E self pd w) as (o & d & Heq & _ & _ & Ho).
  rewrite Heq in Hrun. injection Hrun as -> <-.
  destruct Ho as (record & Hadded & Hrec).
  specialize (Hrec b refs Hb Hpnr Hgate). rewrite Hlast in Hrec.
  exists record, (join " / " (flat (audit d))). cbn. by rewrite Hadded.
Qed.

(** C7.  A patient passes the gate with the two references [r1], resolving
    to status 2, and [r2], resolving to status 1.  When [process_patient]
    returns, the one record handed to the report has ["pnr_status"] 1 and,
    as ["pic"], the identifier looked up for [r2]: both fields show the
    second reference only. *)
Theorem second_reference_overwrites_first
    (E : Env) (self : ProcessPatients) (pd : pydict) (b : datetime)
    (r1 r2 : string) (w w' : world) :
  pd !! "birthday" = Some (VDate b) ->
  pd !! "pnr" = Some (VList [r1; r2]) ->
  passed (fst (gate self (with_age E pd b))) <= 0 ->
  resolved_status E r1 = 2 ->
  resolved_status E r2 = 1 ->
  process_patient E self pd w = (Ok tt, w') ->
  exists record comment pic,
    added w' = added w ++ [(record, comment)] /\
    record !! "pnr_status" = Some (VInt 1) /\
    lookup_result E r2 = Ok pic /\
    record !! "pic" = Some pic.
Proof.
  intros Hb Hpnr Hgate _ Hst2 Hrun.
  destruct (last_reference_wins E self pd b [r1; r2] r2 w w' Hb Hpnr Hgate eq_refl Hrun)
    as (record & comment & Hadded & Hstatus & Hpic & _).
  rewrite Hst2 in Hstatus. destruct Hpic as (pic & Hlook & Hrec); [by left|].
  by exists record, comment, pic.
Qed.

Lemma second_reference_witness :
  let E := Demo.demo_env ["Altre prestazioni"] in
  let run := process_patient E (Demo.demo_self "") (Demo.adult ["2"; "1"]) empty_world in
  exists record comment pic,
    added (snd run) = added empty_world ++ [(record, comment)] /\
    record !! "pnr_status" = Some (VInt 1) /\
    lookup_result E "1" = Ok pic /\
    record !! "pic" = Some pic.
Proof.
  apply (second_reference_overwrites_first
           (Demo.demo_env ["Altre prestazioni"]) (Demo.demo_self "")
           (Demo.adult ["2"; "1"]) (mk_datetime 1980 1 1) "2" "1" empty_world).
  - reflexivity.
  - reflexivity.
  - vm_compute. discriminate.
  - reflexivity.
  - reflexivity.
  - vm_compute. reflexivity.
Defined.

Example demo_second_reference :
  map (fun p => (fst p !! "pnr_status", fst p !! "pic"))
    (added (snd (process_patient (Demo.demo_env ["Altre prestazioni"])
                   (Demo.demo_self "") (Demo.adult ["2"; "1"]) empty_world)))
  = [(Some (VInt 1), Some (VStr "PIC-1"))].
Proof. vm_compute. reflexivity. Qed.

(** ** The batch: records, session and mail *)

Lemma only_calls_login E self : only_calls not_quit (login E self) (fun _ => True).
Proof.
  unfold login. destruct (_ || _); [apply only_calls_raise|].
  eapply only_calls_bind; [by apply only_calls_post|intros _ _].
  eapply only_calls_weaken; [by apply only_calls_post|done].
Qed.

(** Patients that go through get one record each, and the session stays
    open. *)
Lemma for_each_patients_ok E self pre : forall w1 w2,
  for_each pre (process_patient E self) w1 = (Ok tt, w2) ->
  exists d, w2 = w1 ⊕ d /\
    length (added d) = length pre /\ mails d = 0%nat /\
    forallb not_quit (calls d) = true.
Proof.
  induction pre as [|p pre IH]; intros w1 w2 Hrun; cbn in Hrun.
  - injection Hrun as <-. exists empty_world. by rewrite app_world_empty_r.
  - unfold bind in Hrun.
    destruct (process_patient_spec E self p w1) as (o & d1 & Heq & Hc1 & Hm1 & Ho).
    rewrite Heq in Hrun. destruct o as [[]|e]; [|done].
    destruct Ho as (record & Hadded & _).
    destruct (IH _ _ Hrun) as (d2 & -> & Hlen & Hm2 & Hc2).
    exists (d1 ⊕ d2). rewrite app_world_assoc. cbn.
    rewrite Hadded, forallb_app, Hc1, Hc2, Hm1, Hm2. cbn. by rewrite Hlen.
Qed.

(** What a failing patient leaves behind: the records of the patients
    before it, no record of its own, the session open and no mail. *)
Lemma batch_failure_effects E self pre p e reply w0 w1 w2 w3 :
  login E self w0 = (Ok reply, w1) ->
  for_each pre (process_patient E self) w1 = (Ok tt, w2) ->
  process_patient E self p w2 = (Raise e, w3) ->
  length (added w3) = (length (added w0) + length pre)%nat /\
  mails w3 = mails w0 /\
  exists l, calls w3 = calls w0 ++ l /\ forallb not_quit l = true.
Proof.
  intros Hlogin Hpre Hp.
  destruct (only_calls_login E self w0) as (o0 & d0 & Heq0 & (Hc0 & _ & Hd0 & Hm0) & _).
  rewrite Heq0 in Hlogin. injection Hlogin as -> <-.
  destruct (for_each_patients_ok E self pre _ _ Hpre) as (d1 & -> & Hlen & Hm1 & Hc1).
  destruct (process_patient_spec E self p (w0 ⊕ d0 ⊕ d1))
    as (o & d2 & Heq2 & Hc2 & Hm2 & Ho).
  rewrite Heq2 in Hp. injection Hp as -> <-. cbn.
  rewrite Hd0, Ho, Hm0, Hm1, Hm2, !length_app, Hlen. cbn.
  split; [lia|]. split; [lia|].
  exists (calls d0 ++ calls d1 ++ calls d2).
  by rewrite !app_assoc, !forallb_app, Hc0, Hc1, Hc2.
Qed.

(** C2, as the code has it.  [process_patients] catches nothing: when the
    processing of a patient raises, the batch ends there with that
    exception.  The patients before it have one record each; the failing
    patient and those after it get no record, and no failure entry exists. *)
Theorem batch_stops_at_first_failure
    (E : Env) (self : ProcessPatients) (pre post : list pydict) (p : pydict)
    (e : exn) (reply : gmap string (list pydict)) (w0 w1 w2 w3 : world) :
  _parse_input_from_hospital E self (path_file_input self) w0
    = (Ok (pre ++ p :: post), w0) ->
  login E self w0 = (Ok reply, w1) ->
  for_each pre (process_patient E self) w1 = (Ok tt, w2) ->
  process_patient E self p w2 = (Raise e, w3) ->
  process_patients E self w0 = (Raise e, w3) /\
  length (added w3) = (length (added w0) + length pre)%nat /\
  added w3 = added w2 /\
  mails w3 = mails w0.
Proof.
  intros Hparse Hlogin Hpre Hp. split; [by eapply process_patients_stops|].
  destruct (batch_failure_effects E self pre p e reply w0 w1 w2 w3 Hlogin Hpre Hp)
    as (Hlen & Hmail & _).
  split; [done|]. split; [|done].
  destruct (process_patient_spec E self p w2) as (o & d & Heq & _ & _ & Ho).
  rewrite Heq in Hp. injection Hp as -> <-. cbn. by rewrite Ho, app_nil_r.
Qed.

Lemma batch_stops_witness :
  let E := Demo.demo_env ["Altre prestazioni"] in
  let self := Demo.demo_self "three.csv" in
  let p1 := Demo.parsed (Demo.row "CF1" "01/01/1980" "2" "Radiologia") in
  let p2 := Demo.parsed (Demo.row "CF2" "01/01/1980" "X" "Radiologia") in
  let w1 := snd (login E self empty_world) in
  let w2 := snd (process_patient E self p1 w1) in
  let w3 := snd (process_patient E self p2 w2) in
  process_patients E self empty_world = (Raise (PortalError "timeout"), w3) /\
  length (added w3) = (length (added empty_world) + length [p1])%nat /\
  added w3 = added w2 /\
  mails w3 = mails empty_world.
Proof.
  intros E self p1 p2 w1 w2 w3.
  apply (batch_stops_at_first_failure E self [p1]
           [Demo.parsed (Demo.row "CF3" "15/09/2015" "1" "Radiologia")] p2
           (PortalError "timeout")
           (Demo.demo_reply url_login
              [("UserName", VStr "centre"); ("Password", VStr "secret")])
           empty_world w1 w2 w3).
  - vm_compute. reflexivity.
  - vm_compute. reflexivity.
  - vm_compute. reflexivity.
  - vm_compute. reflexivity.
Defined.

(** When every patient goes through, the session is closed once, after the
    last of them, and only then is the mail sent. *)
Lemma session_closed_after_last_patient E self patients reply w0 w1 w2 :
  _parse_input_from_hospital E self (path_file_input self) w0 = (Ok patients, w0) ->
  login E self w0 = (Ok reply, w1) ->
  for_each patients (process_patient E self) w1 = (Ok tt, w2) ->
  fault (portal E) Quit = None ->
  process_patients E self w0 = (Ok tt, log_mail (log_call Quit w2)) /\
  exists l, calls (log_mail (log_call Quit w2)) = calls w0 ++ l ++ [Quit] /\
            forallb not_quit l = true.
Proof.
  intros Hparse Hlogin Hloop Hquit. split.
  - unfold process_patients.
    rewrite (bind_ok _ _ _ _ _ Hparse), (bind_ok _ _ _ _ _ Hlogin),
      (bind_ok _ _ _ _ _ Hloop), (bind_ok _ _ _ _ _ (call_ok E Quit w2 Hquit)).
    done.
  - destruct (only_calls_login E self w0)
      as (o0 & d0 & Heq0 & (Hc0 & _ & Hd0 & Hm0) & _).
    rewrite Heq0 in Hlogin. injection Hlogin as -> <-.
    destruct (for_each_patients_ok E self patients _ _ Hloop)
      as (d1 & -> & _ & _ & Hc1).
    exists (calls d0 ++ calls d1). cbn.
    by rewrite !app_assoc, forallb_app, Hc0, Hc1.
Qed.

(** ** The three branches of [process_pnr] *)

Lemma fetch_patient_data_ok E pnr w :
  fault (portal E) (Get (url_cerca_quadro ++ pnr)) = None ->
  fetch_patient_data E pnr w
  = (Ok (page_text (portal E) (url_cerca_quadro ++ pnr)),
     log_call (Get (url_cerca_quadro ++ pnr)) w).
Proof.
  intros H. unfold fetch_patient_data, webdriver_get_text.
  by rewrite (bind_ok _ _ _ _ _ (call_ok E _ w H)).
Qed.

Lemma evaluate_ok e ctx b w :
  eval ctx e = Some (VBool b) -> evaluate e ctx w = (Ok b, w).
Proof. intros H. unfold evaluate. by rewrite H. Qed.

(** From the identifier lookup on, [process_pnr] makes the lookup first and
    no selenium call at all. *)
Ltac lookup_tail :=
  unfold _fetch_pic_from_database, webdriver_post, fetch_telerik_pdf,
    webdriver_call, getitem, lift, execute, ret, raise, bind;
  repeat (match goal with
          | |- context [fault ?p ?c] => destruct (fault p c) eqn:?
          | |- context [first_numero_auth ?r] => destruct (first_numero_auth r) eqn:?
          | |- context [check_pdf ?E ?a ?b ?c] => destruct (check_pdf E a b c) eqn:?
          | |- context [@lookup ?K ?A ?M ?L ?k ?m] =>
              destruct (@lookup K A M L k m) eqn:?
          end; cbn [fst snd]);
  cbn [fst snd calls log_call log_phase];
  rewrite <- ?app_assoc; cbn [app].

Lemma process_pnr_approved E self pd pnr comments w :
  fault (portal E) (Get (url_cerca_quadro ++ pnr)) = None ->
  resolved_status E pnr = 2 ->
  exists l, calls (snd (process_pnr E self pd pnr comments w))
            = calls w ++ Get (url_cerca_quadro ++ pnr) :: l /\
    exists l', l = Post url_database (pic_payload pnr) :: l' /\
               forallb (fun c => negb (is_accept c)) l' = true.
Proof.
  intros Hget Hst. unfold process_pnr.
  rewrite (bind_ok _ _ _ _ _ (fetch_patient_data_ok E pnr w Hget)).
  fold (resolved_status E pnr). rewrite Hst.
  rewrite (bind_ok _ _ _ _ _ (evaluate_ok _ _ _ _ (eval_status_in_1_2 pd 2))).
  cbn [bool_decide decide_rel].
  rewrite bool_decide_eq_true_2 by auto.
  rewrite bind_assoc.
  rewrite (bind_ok _ _ _ _ _ (evaluate_ok _ _ _ _ (eval_status_is_1 pd 2))).
  rewrite bool_decide_eq_false_2 by done.
  rewrite bind_assoc. rewrite (bind_ok (ret tt) _ _ tt _ eq_refl).
  rewrite !bind_assoc.
  lookup_tail.
  all: eexists; (split; [reflexivity|]); eexists; (split; [reflexivity|]); reflexivity.
Qed.

Lemma process_pnr_awaiting E self pd pnr comments w esame prestazioni :
  fault (portal E) (Get (url_cerca_quadro ++ pnr)) = None ->
  resolved_status E pnr = 1 ->
  pd !! "esame" = Some esame ->
  pd !! "prestazioni" = Some prestazioni ->
  exists l, calls (snd (process_pnr E self pd pnr comments w))
            = calls w ++ Get (url_cerca_quadro ++ pnr) :: l /\
    exists la lb,
      l = GetSelenium url_identify_patient :: la ++ lb /\
      forallb is_accept la = true /\
      forallb (fun c => negb (is_accept c)) lb = true /\
      (lb = [] \/ exists lb', lb = Post url_database (pic_payload pnr) :: lb') /\
      (is_ok (fst (process_pnr E self pd pnr comments w)) = true -> lb <> []).
Proof.
  intros Hget Hst Hesame Hprest. unfold process_pnr.
  rewrite (bind_ok _ _ _ _ _ (fetch_patient_data_ok E pnr w Hget)).
  fold (resolved_status E pnr). rewrite Hst.
  rewrite (bind_ok _ _ _ _ _ (evaluate_ok _ _ _ _ (eval_status_in_1_2 pd 1))).
  rewrite bool_decide_eq_true_2 by auto.
  rewrite bind_assoc.
  rewrite (bind_ok _ _ _ _ _ (evaluate_ok _ _ _ _ (eval_status_is_1 pd 1))).
  rewrite bool_decide_eq_true_2 by done.
  rewrite !bind_assoc.
  assert (He : (<["pnr_status" := VInt 1]> pd : pydict) !! "esame" = Some esame)
    by (by rewrite lookup_insert_ne).
  assert (Hp : (<["pnr_status" := VInt 1]> pd : pydict) !! "prestazioni"
               = Some prestazioni)
    by (by rewrite lookup_insert_ne).
  rewrite (bind_ok _ _ _ _ _ (getitem_ok _ _ _ _ He)). cbv beta.
  rewrite !bind_assoc.
  rewrite (bind_ok _ _ _ _ _ (getitem_ok _ _ _ _ Hp)). cbv beta.
  destruct (accept_yields E pnr esame prestazioni
              (log_call (Get (url_cerca_quadro ++ pnr)) w))
    as (o & d & Heq & la & Hcalls & Hacc & _).
  destruct o as [[]|e].
  - rewrite (bind_ok _ _ _ _ _ Heq).
    lookup_tail.
    all: cbn [calls app_world log_call]; rewrite Hcalls, <- !app_assoc; cbn [app];
      eexists; (split; [reflexivity|]); exists la; eexists;
      (split; [reflexivity|]); (split; [exact Hacc|]); (split; [reflexivity|]);
      (split; [right; eexists; reflexivity | intros _; discriminate]).
  - rewrite (bind_raise _ _ _ _ _ Heq).
    cbn [fst snd calls app_world log_call]. rewrite Hcalls, <- !app_assoc. cbn [app].
    eexists. split; [reflexivity|]. exists la, [].
    rewrite app_nil_r. repeat split; auto.
Qed.

Lemma process_pnr_not_actionable E self pd pnr comments w :
  fault (portal E) (Get (url_cerca_quadro ++ pnr)) = None ->
  resolved_status E pnr <> 1 ->
  resolved_status E pnr <> 2 ->
  calls (snd (process_pnr E self pd pnr comments w))
    = calls w ++ [Get (url_cerca_quadro ++ pnr)] /\
  exists c',
    fst (process_pnr E self pd pnr comments w)
    = Ok (<["pic" := VNone]> (<["pnr_status" := VInt (resolved_status E pnr)]> pd), c').
Proof.
  intros Hget H1 H2. unfold process_pnr.
  rewrite (bind_ok _ _ _ _ _ (fetch_patient_data_ok E pnr w Hget)).
  fold (resolved_status E pnr).
  rewrite (bind_ok _ _ _ _ _ (evaluate_ok _ _ _ _ (eval_status_in_1_2 pd _))).
  rewrite bool_decide_eq_false_2 by (intros [?|?]; done).
  rewrite (bind_ok (ret _) _ _ _ _ eq_refl).
  unfold execute, bind, ret. cbn. eauto.
Qed.

Lemma process_pnr_awaiting_without_keys E self pd pnr comments w :
  fault (portal E) (Get (url_cerca_quadro ++ pnr)) = None ->
  resolved_status E pnr = 1 ->
  pd !! "esame" = None \/ pd !! "prestazioni" = None ->
  calls (snd (process_pnr E self pd pnr comments w))
    = calls w ++ [Get (url_cerca_quadro ++ pnr)] /\
  is_ok (fst (process_pnr E self pd pnr comments w)) = false.
Proof.
  intros Hget Hst Hkeys. unfold process_pnr.
  rewrite (bind_ok _ _ _ _ _ (fetch_patient_data_ok E pnr w Hget)).
  fold (resolved_status E pnr). rewrite Hst.
  rewrite (bind_ok _ _ _ _ _ (evaluate_ok _ _ _ _ (eval_status_in_1_2 pd 1))).
  rewrite bool_decide_eq_true_2 by auto.
  rewrite bind_assoc.
  rewrite (bind_ok _ _ _ _ _ (evaluate_ok _ _ _ _ (eval_status_is_1 pd 1))).
  rewrite bool_decide_eq_true_2 by done.
  rewrite !bind_assoc.
  destruct (pd !! "esame") as [esame|] eqn:He.
  - assert (He' : (<["pnr_status" := VInt 1]> pd : pydict) !! "esame" = Some esame)
      by (by rewrite lookup_insert_ne).
    rewrite (bind_ok _ _ _ _ _ (getitem_ok _ _ _ _ He')). cbv beta.
    rewrite !bind_assoc.
    destruct Hkeys as [[=]|Hp].
    assert (Hp' : (<["pnr_status" := VInt 1]> pd : pydict) !! "prestazioni" = None)
      by (by rewrite lookup_insert_ne).
    by rewrite (bind_raise _ _ _ _ _ (getitem_raise _ _ _ Hp')).
  - assert (He' : (<["pnr_status" := VInt 1]> pd : pydict) !! "esame" = None)
      by (by rewrite lookup_insert_ne).
    by rewrite (bind_raise _ _ _ _ _ (getitem_raise _ _ _ He')).
Qed.

Lemma accept_call_is_no_lookup c : is_accept c = true -> is_lookup c = false.
Proof. by destruct c. Qed.

(** C4.  Once the page of the reference is fetched, [process_pnr] goes by
    the status it resolves to.  Status 1: the accept-request procedure runs
    first, opening with its selenium page and making selenium calls only;
    the identifier lookup follows it, and is made whenever [process_pnr]
    returns (a record without the examination or the category fails before
    either).  Status 2: the identifier lookup comes at once and no selenium
    call is made.  Any other status: no further call is made and the record
    returned has ["pic"] set to [None]. *)
Theorem process_pnr_dispatches_on_status
    (E : Env) (self : ProcessPatients) (pd : pydict) (pnr : string)
    (comments : list string) (w : world) :
  let url := (url_cerca_quadro ++ pnr)%string in
  let status := resolved_status E pnr in
  let run := process_pnr E self pd pnr comments w in
  let lookup := Post url_database (pic_payload pnr) in
  fault (portal E) (Get url) = None ->
  (status = 1 ->
   (exists la lb,
      calls (snd run)
        = calls w ++ Get url :: GetSelenium url_identify_patient :: la ++ lb /\
      forallb is_accept la = true /\
      forallb (fun c => negb (is_accept c)) lb = true /\
      (lb = [] \/ exists lb', lb = lookup :: lb') /\
      (is_ok (fst run) = true -> lb <> [])) \/
   ((pd !! "esame" = None \/ pd !! "prestazioni" = None) /\
    calls (snd run) = calls w ++ [Get url] /\
    is_ok (fst run) = false)) /\
  (status = 2 ->
   exists l',
     calls (snd run) = calls w ++ Get url :: lookup :: l' /\
     forallb (fun c => negb (is_accept c)) l' = true) /\
  (status <> 1 -> status <> 2 ->
   calls (snd run) = calls w ++ [Get url] /\
   exists c',
     fst run = Ok (<["pic" := VNone]> (<["pnr_status" := VInt status]> pd), c')).
Proof.
  intros url status run lookup Hget. subst url status run lookup.
  split; [|split].
  - intros H1.
    destruct (pd !! "esame") as [esame|] eqn:He;
      [destruct (pd !! "prestazioni") as [prestazioni|] eqn:Hp|].
    + left.
      destruct (process_pnr_awaiting E self pd pnr comments w esame prestazioni
                  Hget H1 He Hp) as (l & Hcalls & la & lb & -> & Hshape).
      by exists la, lb.
    + right. split; [by right|].
      apply process_pnr_awaiting_without_keys; auto.
    + right. split; [by left|].
      apply process_pnr_awaiting_without_keys; auto.
  - intros H2.
    destruct (process_pnr_approved E self pd pnr comments w Hget H2)
      as (l & Hcalls & l' & -> & Hshape).
    by exists l'.
  - intros H1 H2.
    by apply process_pnr_not_actionable.
Qed.

Lemma process_pnr_dispatch_witness :
  let E := Demo.demo_env ["Altre prestazioni"] in
  let self := Demo.demo_self "" in
  (exists la lb,
     calls (snd (process_pnr E self (Demo.adult ["1"]) "1" [] empty_world))
       = calls empty_world ++ Get (url_cerca_quadro ++ "1")
           :: GetSelenium url_identify_patient :: la ++ lb /\
     forallb is_accept la = true /\
     forallb (fun c => negb (is_accept c)) lb = true /\
     (lb = [] \/ exists lb', lb = Post url_database (pic_payload "1") :: lb') /\
     (is_ok (fst (process_pnr E self (Demo.adult ["1"]) "1" [] empty_world)) = true ->
      lb <> [])) /\
  (exists l',
     calls (snd (process_pnr E self (Demo.adult ["2"]) "2" [] empty_world))
       = calls empty_world ++ Get (url_cerca_quadro ++ "2")
           :: Post url_database (pic_payload "2") :: l' /\
     forallb (fun c => negb (is_accept c)) l' = true) /\
  (calls (snd (process_pnr E self (Demo.adult ["3"]) "3" [] empty_world))
     = calls empty_world ++ [Get (url_cerca_quadro ++ "3")] /\
   exists c',
     fst (process_pnr E self (Demo.adult ["3"]) "3" [] empty_world)
     = Ok (<["pic" := VNone]>
             (<["pnr_status" := VInt (resolved_status E "3")]> (Demo.adult ["3"])), c')).
Proof.
  intros E self. split; [|split].
  - destruct (proj1 (process_pnr_dispatches_on_status E self (Demo.adult ["1"]) "1" []
                       empty_world eq_refl) eq_refl) as [H|[[H|H] _]].
    + exact H.
    + vm_compute in H. discriminate H.
    + vm_compute in H. discriminate H.
  - apply (proj1 (proj2 (process_pnr_dispatches_on_status E self (Demo.adult ["2"])
                    "2" [] empty_world eq_refl))).
    reflexivity.
  - apply (proj2 (proj2 (process_pnr_dispatches_on_status E self (Demo.adult ["3"])
                    "3" [] empty_world eq_refl))).
    + vm_compute. discriminate.
    + vm_compute. discriminate.
Defined.

(** * More of the module, beyond the batch claims *)

(** ** [_parse_input_from_hospital]: what a parsed list looks like *)

Lemma convert_item_insert E row d item d' :
  convert_item E row d item = Ok d' ->
  exists v, is_parsed_value v = true /\ d' = <[var_name item := v]> d.
Proof.
  unfold convert_item, row_getitem.
  repeat match goal with
         | |- context [String.eqb ?a ?b] => destruct (String.eqb a b)
         | |- context [@lookup ?K ?A ?M ?L ?k ?m] => destruct (@lookup K A M L k m)
         | |- context [date_format ?i] => destruct (date_format i)
         | |- context [strptime ?E ?a ?b] => destruct (strptime E a b)
         end;
    intros [= <-]; eexists; (split; [|reflexivity]); reflexivity.
Qed.

Lemma convert_row_fields E row items : forall d d',
  convert_row E row items d = Ok d' ->
  (forall key, is_Some (d' !! key) <-> is_Some (d !! key) \/ key ∈ (var_name <$> items)) /\
  (forall key v, d' !! key = Some v -> d !! key = Some v \/ is_parsed_value v = true).
Proof.
  induction items as [|item items IH]; intros d d' Hrow; cbn in Hrow.
  - injection Hrow as <-. split.
    + intros key. rewrite fmap_nil, elem_of_nil. tauto.
    + auto.
  - destruct (convert_item E row d item) as [d1|e] eqn:Hitem; [|done].
    destruct (convert_item_insert E row d item d1 Hitem) as (v & Hv & ->).
    destruct (IH _ _ Hrow) as [Hkeys Hvals]. split.
    + intros key. rewrite Hkeys, fmap_cons, elem_of_cons.
      destruct (decide (var_name item = key)) as [<-|Hne].
      * rewrite lookup_insert_eq. split; [auto|]. intros _. left. eauto.
      * rewrite lookup_insert_ne by done. split; [tauto|].
        intros [?|[?|?]]; [tauto|congruence|tauto].
    + intros key v' Hkey. destruct (Hvals key v' Hkey) as [Hin|?]; [|auto].
      destruct (decide (var_name item = key)) as [<-|Hne].
      * rewrite lookup_insert_eq in Hin. injection Hin as <-. auto.
      * rewrite lookup_insert_ne in Hin by done. auto.
Qed.

Lemma convert_rows_each E self rows : forall acc l,
  convert_rows E self rows acc = Ok l ->
  exists new, l = acc ++ new /\
    Forall2 (fun row record =>
               convert_row E row (mapping_csv (config_yaml self)) ∅ = Ok record)
            rows new.
Proof.
  induction rows as [|row rows IH]; intros acc l Hrows; cbn in Hrows.
  - injection Hrows as <-. exists []. by rewrite app_nil_r.
  - destruct (convert_row E row (mapping_csv (config_yaml self)) ∅)
      as [record|e] eqn:Hrow; [|done].
    destruct (IH _ _ Hrows) as (new & -> & Hall).
    exists (record :: new). rewrite <- app_assoc. split; [done|].
    by constructor.
Qed.

Lemma parse_returns_rows E self path patients w w' :
  _parse_input_from_hospital E self path w = (Ok patients, w') ->
  w' = w /\
  exists rows,
    files E path = Some rows /\
    Forall2 (fun row record =>
               convert_row E row (mapping_csv (config_yaml self)) ∅ = Ok record)
            rows patients.
Proof.
  unfold _parse_input_from_hospital, raise, lift.
  destruct (files E path) as [rows|]; [|done].
  intros [= Hrows <-]. split; [done|]. exists rows. split; [done|].
  by destruct (convert_rows_each E self rows [] patients Hrows) as (new & -> & Hall).
Qed.

(** X1.  When [_parse_input_from_hospital] returns, the file exists and the
    list holds one record per data row, in row order: the i-th record is the
    conversion of the i-th row, and its keys are exactly the [var_name]s of
    the mapping.  The world is untouched. *)
Theorem parse_one_record_per_row
    (E : Env) (self : ProcessPatients) (path : string)
    (patients : list pydict) (w w' : world) :
  _parse_input_from_hospital E self path w = (Ok patients, w') ->
  w' = w /\
  exists rows,
    files E path = Some rows /\
    length patients = length rows /\
    Forall2 (fun row record =>
               convert_row E row (mapping_csv (config_yaml self)) ∅ = Ok record /\
               forall key, is_Some (record !! key)
                           <-> key ∈ (var_name <$> mapping_csv (config_yaml self)))
            rows patients.
Proof.
  intros Hparse.
  destruct (parse_returns_rows E self path patients w w' Hparse)
    as (-> & rows & Hfile & Hall).
  split; [done|]. exists rows. split; [done|].
  split; [symmetry; by eapply Forall2_length|].
  eapply Forall2_impl; [exact Hall|].
  cbn. intros row record Hrow. split; [done|].
  intros key. destruct (convert_row_fields E row _ _ _ Hrow) as [Hkeys _].
  rewrite Hkeys, lookup_empty. split; [|auto].
  intros [[? [=]]|?]; done.
Qed.

Lemma parse_one_record_per_row_witness :
  let run := _parse_input_from_hospital (Demo.demo_env []) (Demo.demo_self "three.csv")
               "three.csv" empty_world in
  snd run = empty_world /\
  exists rows,
    files (Demo.demo_env []) "three.csv" = Some rows /\
    length (match fst run with Ok l => l | Raise _ => [] end) = length rows /\
    Forall2 (fun row record =>
               convert_row (Demo.demo_env []) row Demo.demo_mapping ∅ = Ok record /\
               forall key, is_Some (record !! key)
                           <-> key ∈ (var_name <$> Demo.demo_mapping))
            rows (match fst run with Ok l => l | Raise _ => [] end).
Proof.
  apply (parse_one_record_per_row (Demo.demo_env []) (Demo.demo_self "three.csv")
           "three.csv").
  vm_compute. reflexivity.
Defined.






(** X4.  A column of an unknown type in the mapping is noticed only when
    the file has a data row: on a file with a header and no row the parse
    returns the empty list whatever the mapping, and on a file with a row
    whose earlier columns convert it raises the [ValueError] of the unknown
    type. *)
Theorem unknown_coltype_needs_a_row
    (E : Env) (self : ProcessPatients) (path : string)
    (pre post : list column) (item : column) (w : world) :
  mapping_csv (config_yaml self) = pre ++ item :: post ->
  known_coltype (coltype item) = false ->
  (files E path = Some [] ->
   _parse_input_from_hospital E self path w = (Ok [], w)) /\
  (forall row rest d,
     files E path = Some (row :: rest) ->
     convert_row E row pre ∅ = Ok d ->
     _parse_input_from_hospital E self path w
       = (Raise (ValueError msg_unknown_type), w)).
Proof.
  intros Hmap Hunknown. unfold _parse_input_from_hospital, lift. split.
  - by intros ->.
  - intros row rest d -> Hpre. cbn [convert_rows].
    rewrite Hmap, convert_row_app, Hpre. cbn [convert_row].
    unfold convert_item. unfold known_coltype in Hunknown.
    repeat (apply orb_false_elim in Hunknown as [Hunknown ?]).
    by repeat match goal with H : String.eqb _ _ = false |- _ => rewrite H; clear H end.
Qed.

Lemma unknown_coltype_witness :
  _parse_input_from_hospital (Samples.env []) (Demo.self_with_mapping Demo.mixed_mapping)
    "empty.csv" empty_world = (Ok [], empty_world) /\
  _parse_input_from_hospital (Samples.env []) (Demo.self_with_mapping Demo.mixed_mapping)
    "two.csv" empty_world = (Raise (ValueError msg_unknown_type), empty_world).
Proof.
  destruct (unknown_coltype_needs_a_row (Samples.env [])
              (Demo.self_with_mapping Demo.mixed_mapping) "empty.csv"
              [] [mk_column "array" "pnr" "PNR" None]
              (mk_column "int" "visits" "VISITE" None) empty_world eq_refl eq_refl)
    as [Hempty _].
  destruct (unknown_coltype_needs_a_row (Samples.env [])
              (Demo.self_with_mapping Demo.mixed_mapping) "two.csv"
              [] [mk_column "array" "pnr" "PNR" None]
              (mk_column "int" "visits" "VISITE" None) empty_world eq_refl eq_refl)
    as [_ Hrow].
  split.
  - apply Hempty. reflexivity.
  - eapply Hrow; reflexivity.
Defined.

(** ** [login] *)

(** X5.  With a user name and a password that are not the empty string,
    [login] posts the same form to the login page twice, the second time
    only if the first request went through, and returns the second answer;
    it makes no other call. *)
Theorem login_posts_form_twice (E : Env) (self : ProcessPatients) (w : world) :
  username self <> VStr "" ->
  password self <> VStr "" ->
  let form := [("UserName", username self); ("Password", password self)] in
  login E self w =
  match fault (portal E) (Post url_login form) with
  | Some e => (Raise e, log_call (Post url_login form) w)
  | None => (Ok (reply_json (portal E) url_login form),
             log_call (Post url_login form) (log_call (Post url_login form) w))
  end.
Proof.
  intros Hu Hp form. unfold login.
  rewrite !bool_decide_eq_false_2 by done. cbn [orb].
  unfold bind, webdriver_post, webdriver_call, ret. fold form.
  by destruct (fault (portal E) (Post url_login form)).
Qed.

Lemma login_posts_form_twice_witness :
  let form := [("UserName", VStr "centre"); ("Password", VStr "secret")] in
  login (Demo.demo_env []) (Demo.demo_self "two.csv") empty_world
  = (Ok (reply_json (portal (Demo.demo_env [])) url_login form),
     log_call (Post url_login form) (log_call (Post url_login form) empty_world)).
Proof.
  intros form.
  exact (login_posts_form_twice (Demo.demo_env []) (Demo.demo_self "two.csv")
           empty_world ltac:(discriminate) ltac:(discriminate)).
Defined.

(** ** [_check_request_accepted]: when the patient is submitted *)

Lemma select_item_calls E codes : forall w,
  fault (portal E) (FindElements By.CLASS_NAME "k-item") = None ->
  exists n, (n <= length codes)%nat /\
    calls (snd (select_item E codes w))
    = calls w ++ repeat (FindElements By.CLASS_NAME "k-item") n.
Proof.
  induction codes as [|code rest IH]; intros w Hf; cbn [select_item].
  - exists 0%nat. cbn. by rewrite app_nil_r.
  - rewrite (bind_ok _ _ _ _ _ (find_elements_ok E _ _ w Hf)).
    destruct (find_item _ code).
    + exists 1%nat. cbn. split; [lia|done].
    + destruct (IH (log_call (FindElements By.CLASS_NAME "k-item") w) Hf)
        as (n & Hn & ->).
      exists (S n). cbn. split; [lia|]. by rewrite <- app_assoc.
Qed.

Lemma existsb_repeat_false {A} (f : A -> bool) x n :
  f x = false -> existsb f (repeat x n) = false.
Proof. intros H. induction n as [|n IH]; cbn; [done|]. by rewrite H, IH. Qed.

(** X6.  With no selenium call failing, the accept-request procedure goes
    through its opening calls and at most three queries of the offered
    categories; it returns exactly when one of the three codes is offered
    and the portal shows a response paragraph, and the click that submits
    the patient (btnIstruisci) is made exactly then: with no category it
    stops after the queries with [ValueError], and with a category but no
    paragraph it stops with [IndexError], before anything is submitted. *)
Theorem accept_request_submits_only_on_success
    (E : Env) (pnr : string) (esame code : pyval) (w : world) :
  (forall c, is_accept c = true -> fault (portal E) c = None) ->
  let offered := elements_text (portal E) By.CLASS_NAME "k-item" in
  let messages := elements_text (portal E) By.XPATH "//h4/following-sibling::p" in
  let run := _check_request_accepted E pnr esame code w in
  exists n tail,
    (n <= 3)%nat /\
    calls (snd run)
      = calls w ++ accept_opening pnr
          ++ repeat (FindElements By.CLASS_NAME "k-item") n ++ tail /\
    (is_ok (fst run) = true
     <-> first_present (codes_to_try code) offered <> None /\ messages <> []) /\
    existsb is_submit tail = is_ok (fst run) /\
    (first_present (codes_to_try code) offered = None ->
     tail = [] /\ fst run = Raise (ValueError msg_prestazioni)) /\
    (first_present (codes_to_try code) offered <> None -> messages = [] ->
     fst run = Raise IndexError).
Proof.
  intros Hnf offered messages run. subst run.
  unfold _check_request_accepted.
  do 9 step_ok Hnf.
  match goal with
  | |- context [bind (select_item E ?codes) ?k ?w0] =>
      pose proof (select_item_first_present E codes w0
                    (Hnf (FindElements By.CLASS_NAME "k-item") eq_refl)) as Hsel;
      destruct (select_item_calls E codes w0
                  (Hnf (FindElements By.CLASS_NAME "k-item") eq_refl))
        as (n & Hn & Hcalls);
      destruct (select_item E codes w0) as [o w1] eqn:Hrun
  end.
  cbn [fst snd] in Hsel, Hcalls. fold offered in Hsel.
  exists n.
  assert (Hw1 : calls w1 = calls w ++ accept_opening pnr
                  ++ repeat (FindElements By.CLASS_NAME "k-item") n).
  { rewrite Hcalls. cbn [calls log_call]. rewrite <- !app_assoc. reflexivity. }
  clear Hcalls.
  destruct (first_present (codes_to_try code) offered) as [text|]; subst o.
  - rewrite (bind_ok _ _ _ _ _ Hrun). cbv beta.
    do 3 step_ok Hnf.
    erewrite bind_ok by (apply find_elements_ok; apply Hnf; reflexivity). cbv beta.
    fold messages. destruct messages as [|m ms]; cbn [map].
    + rewrite (bind_raise (raise IndexError) _ _ IndexError _ eq_refl).
      cbn [fst snd calls log_call]. rewrite Hw1, <- !app_assoc. cbn [app].
      eexists. split; [cbn in Hn; lia|]. split; [reflexivity|].
      split; [split; [intros [=]|intros [_ ?]; done]|].
      split; [reflexivity|]. split; [done|]. done.
    + rewrite (bind_ok (ret _) _ _ _ _ eq_refl). cbv beta.
      do 5 step_ok Hnf.
      erewrite call_ok by (apply Hnf; reflexivity).
      cbn [fst snd calls log_call]. rewrite Hw1, <- !app_assoc. cbn [app].
      eexists. split; [cbn in Hn; lia|]. split; [reflexivity|].
      split; [split; [done|done]|].
      split; [reflexivity|]. split; [done|]. done.
  - rewrite (bind_raise _ _ _ _ _ Hrun). cbn [fst snd].
    exists []. rewrite Hw1, app_nil_r. split; [cbn in Hn; lia|].
    split; [reflexivity|].
    split; [split; [intros [=]|intros [? _]; done]|].
    split; [reflexivity|]. split; [done|]. done.
Qed.

Lemma accept_request_witness :
  let E := Demo.demo_env ["Altre prestazioni"] in
  let run := _check_request_accepted E "1" (VStr "RX torace") (VStr "Radiologia")
               empty_world in
  exists n tail,
    (n <= 3)%nat /\
    calls (snd run)
      = calls empty_world ++ accept_opening "1"
          ++ repeat (FindElements By.CLASS_NAME "k-item") n ++ tail /\
    (is_ok (fst run) = true
     <-> first_present (codes_to_try (VStr "Radiologia"))
           (elements_text (portal E) By.CLASS_NAME "k-item") <> None /\
         elements_text (portal E) By.XPATH "//h4/following-sibling::p" <> []) /\
    existsb is_submit tail = is_ok (fst run) /\
    (first_present (codes_to_try (VStr "Radiologia"))
       (elements_text (portal E) By.CLASS_NAME "k-item") = None ->
     tail = [] /\ fst run = Raise (ValueError msg_prestazioni)) /\
    (first_present (codes_to_try (VStr "Radiologia"))
       (elements_text (portal E) By.CLASS_NAME "k-item") <> None ->
     elements_text (portal E) By.XPATH "//h4/following-sibling::p" = [] ->
     fst run = Raise IndexError).
Proof.
  exact (accept_request_submits_only_on_success (Demo.demo_env ["Altre prestazioni"])
           "1" (VStr "RX torace") (VStr "Radiologia") empty_world
           (demo_selenium_never_fails _)).
Defined.

(** ** [process_pnr]: what it rewrites, and when the rule phases run *)

Lemma process_pnr_rewrites E self pd pnr comments :
  yields (process_pnr E self pd pnr comments)
    (tracked comments (fun record =>
       exists pic,
         record = <["pic" := pic]>
                    (<["pnr_status" := VInt (resolved_status E pnr)]> pd))).
Proof.
  unfold process_pnr.
  eapply tracked_silent_bind; [by apply only_calls_fetch_patient_data|].
  intros html ->. fold (resolved_status E pnr).
  eapply tracked_silent_bind; [apply only_calls_evaluate|].
  intros actionable _.
  eapply tracked_bind
    with (R1 := fun record =>
            exists pic,
              record = <["pic" := pic]>
                         (<["pnr_status" := VInt (resolved_status E pnr)]> pd)).
  - destruct actionable.
    + eapply tracked_silent_bind; [apply only_calls_evaluate|].
      intros awaiting _.
      eapply tracked_silent_bind with (R1 := fun _ => True).
      { destruct awaiting; [|by apply only_calls_ret].
        eapply only_calls_bind; [apply only_calls_getitem|intros esame _].
        eapply only_calls_bind; [apply only_calls_getitem|intros prestazioni _].
        apply only_calls_accept. by intros []. }
      intros _ _.
      eapply tracked_silent_bind; [by apply only_calls_fetch_pic|].
      intros pic _.
      eapply tracked_silent_bind; [by apply only_calls_call|].
      intros _ _.
      eapply tracked_silent_bind; [apply only_calls_getitem|].
      intros insurance_name _.
      eapply tracked_silent_bind; [apply only_calls_getitem|].
      intros fiscal_code _.
      eapply tracked_silent_bind; [apply only_calls_lift|].
      intros error_codes _.
      apply tracked_execute_bind. intros r1.
      apply tracked_execute_bind. intros r2.
      apply tracked_ret. by exists pic.
    + apply tracked_ret. by exists VNone.
  - intros record c1 Hrec. apply tracked_execute_bind. intros r3.
    by apply tracked_ret.
Qed.

(** X7.  When [process_pnr] returns, the record it returns is the one it
    was given with ["pnr_status"] and ["pic"] rewritten: every other field
    is as it was. *)
Theorem process_pnr_rewrites_two_fields
    (E : Env) (self : ProcessPatients) (pd record : pydict) (pnr : string)
    (comments comments' : list string) (w w' : world) :
  process_pnr E self pd pnr comments w = (Ok (record, comments'), w') ->
  (exists pic,
     record = <["pic" := pic]> (<["pnr_status" := VInt (resolved_status E pnr)]> pd)) /\
  (forall key, key <> "pnr_status" -> key <> "pic" -> record !! key = pd !! key).
Proof.
  intros Hrun.
  destruct (process_pnr_rewrites E self pd pnr comments w)
    as (o & d & Heq & _ & _ & _ & Hrec).
  rewrite Heq in Hrun. injection Hrun as -> <-.
  destruct (Hrec record comments' eq_refl) as [_ [pic ->]].
  split; [by exists pic|].
  intros key H1 H2. by rewrite !lookup_insert_ne.
Qed.

Lemma process_pnr_rewrites_witness :
  let run := process_pnr (Demo.demo_env []) (Demo.demo_self "") (Demo.adult ["2"]) "2" []
               empty_world in
  let record := match fst run with Ok r => fst r | Raise _ => ∅ end in
  (exists pic,
     record = <["pic" := pic]>
                (<["pnr_status" := VInt (resolved_status (Demo.demo_env []) "2")]>
                   (Demo.adult ["2"]))) /\
  (forall key, key <> "pnr_status" -> key <> "pic" ->
     record !! key = Demo.adult ["2"] !! key).
Proof.
  intros run record.
  apply (process_pnr_rewrites_two_fields (Demo.demo_env []) (Demo.demo_self "")
           (Demo.adult ["2"]) record "2" []
           (match fst run with Ok r => snd r | Raise _ => [] end)
           empty_world (snd run)).
  vm_compute. reflexivity.
Defined.

Lemma phases_silent_bind {A B} (c : M A) (k : A -> M B) R1
    (P : outcome B -> list (phase * list string) -> Prop) :
  only_calls not_quit c R1 ->
  (forall a, R1 a -> yields (k a) (fun o d => P o (audit d))) ->
  (forall e, P (Raise e) []) ->
  yields (bind c k) (fun o d => P o (audit d)).
Proof.
  intros Hc Hk He. eapply yields_bind; [exact Hc| |].
  - intros a d1 [(_ & Ha1 & _) HR].
    eapply yields_mono; [apply (Hk a); auto|].
    cbn. intros o d2 HP. by rewrite Ha1.
  - intros e d1 [(_ & Ha1 & _) _]. rewrite Ha1. apply He.
Qed.

Lemma phases_execute_bind {B} self ph ctx comments
    (k : RuleEvaluationResult * list string -> M B)
    (P : outcome B -> list (phase * list string) -> Prop) :
  (forall r acts, yields (k r) (fun o d => P o ((ph, acts) :: audit d))) ->
  yields (bind (execute self ph ctx comments) k) (fun o d => P o (audit d)).
Proof.
  intros Hk. eapply yields_bind; [apply yields_execute_eq| |].
  - intros r d1 [[= ->] ->]. eapply yields_mono; [apply Hk|].
    cbn. intros o d2 HP. exact HP.
  - intros e d1 [[=] _].
Qed.

Lemma process_pnr_phases E self pd pnr comments :
  yields (process_pnr E self pd pnr comments) (fun o d =>
    match o with
    | Raise _ => audit d = []
    | Ok _ => map fst (audit d) = phases_of_status (resolved_status E pnr)
    end).
Proof.
  set (P := fun (o : outcome (pydict * list string)) (la : list (phase * list string)) =>
              match o with
              | Raise _ => la = []
              | Ok _ => map fst la = phases_of_status (resolved_status E pnr)
              end).
  change (yields (process_pnr E self pd pnr comments) (fun o d => P o (audit d))).
  unfold process_pnr.
  eapply phases_silent_bind; [by apply only_calls_fetch_patient_data| |done].
  intros html ->. fold (resolved_status E pnr).
  eapply phases_silent_bind; [apply only_calls_evaluate| |done].
  intros actionable Hact. rewrite eval_status_in_1_2 in Hact. injection Hact as <-.
  subst P. unfold phases_of_status.
  eapply yields_bind
    with (Q := fun o d =>
           match o with
           | Raise _ => audit d = []
           | Ok _ =>
               map fst (audit d)
               = if bool_decide (resolved_status E pnr = 1 \/ resolved_status E pnr = 2)
                 then [patient_data_rules; pdf_analysis] else []
           end).
  - destruct (bool_decide _).
    + set (P := fun (o : outcome (pydict * list string))
                    (la : list (phase * list string)) =>
                  match o with
                  | Raise _ => la = []
                  | Ok _ => map fst la = [patient_data_rules; pdf_analysis]
                  end).
      match goal with
      | |- yields ?c _ => change (yields c (fun o d => P o (audit d)))
      end.
      eapply phases_silent_bind; [apply only_calls_evaluate| |done].
      intros awaiting _.
      eapply phases_silent_bind with (R1 := fun _ => True); [| |done].
      { destruct awaiting; [|by apply only_calls_ret].
        eapply only_calls_bind; [apply only_calls_getitem|intros esame _].
        eapply only_calls_bind; [apply only_calls_getitem|intros prestazioni _].
        apply only_calls_accept. by intros []. }
      intros _ _.
      eapply phases_silent_bind; [by apply only_calls_fetch_pic| |done].
      intros pic _.
      eapply phases_silent_bind; [by apply only_calls_call| |done].
      intros _ _.
      eapply phases_silent_bind; [apply only_calls_getitem| |done].
      intros insurance_name _.
      eapply phases_silent_bind; [apply only_calls_getitem| |done].
      intros fiscal_code _.
      eapply phases_silent_bind; [apply only_calls_lift| |done].
      intros error_codes _.
      apply phases_execute_bind. intros r1 acts1.
      apply (phases_execute_bind _ _ _ _ _
               (fun o la => P o ((patient_data_rules, acts1) :: la))).
      intros r2 acts2. by apply yields_ret.
    + by apply yields_ret.
  - intros r d1 Hd1.
    eapply yields_bind; [apply yields_execute_eq| |].
    + intros r3 d2 [[= ->] ->]. apply yields_ret. cbn.
      rewrite map_app, Hd1. by destruct (bool_decide _).
    + intros e d2 [[=] _].
  - intros e d1 Hd1. done.
Qed.

(** X8.  The rule phases of a reference run last, after every remote step
    of that reference has gone through: when [process_pnr] raises, it has
    run no phase; when it returns, it has run [patient_data], [pdf_analysis]
    and [webportal], in that order, for status 1 or 2, and [webportal] alone
    for any other status. *)
Theorem process_pnr_runs_phases_last
    (E : Env) (self : ProcessPatients) (pd : pydict) (pnr : string)
    (comments : list string) (w : world) :
  let run := process_pnr E self pd pnr comments w in
  exists la,
    audit (snd run) = audit w ++ la /\
    match fst run with
    | Raise _ => la = []
    | Ok _ => map fst la = phases_of_status (resolved_status E pnr)
    end.
Proof.
  cbn zeta. destruct (process_pnr_phases E self pd pnr comments w)
    as (o & d & Heq & HP).
  rewrite Heq. by exists (audit d).
Qed.

(** ** Which calls a patient's processing makes *)

Lemma emits_ret {A} ok (a : A) : emits ok (ret a).
Proof. by apply yields_ret. Qed.

Lemma emits_raise {A} ok e : emits ok (@raise A e).
Proof. by apply yields_raise. Qed.

Lemma emits_bind {A B} ok (c : M A) (k : A -> M B) :
  emits ok c -> (forall a, emits ok (k a)) -> emits ok (bind c k).
Proof.
  intros Hc Hk. eapply yields_bind; [exact Hc| |].
  - intros a d1 H1. eapply yields_mono; [apply Hk|].
    cbn. intros o d2 H2. by rewrite forallb_app, H1, H2.
  - intros e d1 H1. done.
Qed.

Lemma emits_only_calls_bind {A B} ok (c : M A) (k : A -> M B) R1 :
  only_calls ok c R1 -> (forall a, R1 a -> emits ok (k a)) -> emits ok (bind c k).
Proof.
  intros Hc Hk. eapply yields_bind; [exact Hc| |].
  - intros a d1 [(H1 & _) HR]. eapply yields_mono; [apply Hk; auto|].
    cbn. intros o d2 H2. by rewrite forallb_app, H1, H2.
  - intros e d1 [(H1 & _) _]. done.
Qed.

Lemma emits_execute_bind {B} ok self ph ctx comments
    (k : RuleEvaluationResult * list string -> M B) :
  (forall r, emits ok (k r)) -> emits ok (bind (execute self ph ctx comments) k).
Proof.
  intros Hk. apply emits_bind; [|done]. by apply yields_execute.
Qed.

Lemma emits_mono {A} (ok ok' : call -> bool) (c : M A) :
  (forall x, ok x = true -> ok' x = true) -> emits ok c -> emits ok' c.
Proof.
  intros Hok Hc. eapply yields_mono; [exact Hc|].
  cbn. intros o d H. rewrite forallb_forall in *. eauto.
Qed.

Lemma only_calls_find_element_eq E ok by_ value :
  ok (FindElement by_ value) = true ->
  only_calls ok (find_element E by_ value) (fun e => e = mk_element by_ value "").
Proof.
  intros H. unfold find_element.
  eapply only_calls_bind; [by apply only_calls_call|].
  intros _ _. by apply only_calls_ret.
Qed.

Ltac about_side :=
  cbn; rewrite ?String.eqb_refl; rewrite ?bool_decide_eq_true_2 by done; reflexivity.

Ltac about_call :=
  first
    [ apply only_calls_call; about_side
    | apply only_calls_find_element_eq; about_side
    | eapply only_calls_weaken;
        [apply only_calls_find_elements; about_side | done]
    | apply only_calls_select_item; about_side ].

Lemma only_calls_accept_about E pnr esame prestazioni :
  only_calls (about_reference E pnr)
    (_check_request_accepted E pnr esame prestazioni) (fun _ => True).
Proof.
  unfold _check_request_accepted.
  do 13 (eapply only_calls_bind; [about_call | intros ? ?; cbv beta in *; subst]).
  eapply only_calls_bind; [about_call | intros found _].
  eapply only_calls_bind with (R1 := fun _ => True).
  { destruct found; [apply only_calls_raise | by apply only_calls_ret]. }
  intros message _.
  do 5 (eapply only_calls_bind; [about_call | intros ? ?; cbv beta in *; subst]).
  about_call.
Qed.

Lemma process_pnr_emits E self pd pnr comments :
  emits (about_reference E pnr) (process_pnr E self pd pnr comments).
Proof.
  unfold process_pnr.
  eapply emits_only_calls_bind; [apply only_calls_fetch_patient_data; about_side|].
  intros html _.
  eapply emits_only_calls_bind; [apply only_calls_evaluate|].
  intros actionable _.
  apply emits_bind.
  - destruct actionable; [|apply emits_ret].
    eapply emits_only_calls_bind; [apply only_calls_evaluate|].
    intros awaiting _.
    eapply emits_only_calls_bind with (R1 := fun _ => True).
    { destruct awaiting; [|by apply only_calls_ret].
      eapply only_calls_bind; [apply only_calls_getitem|intros esame _].
      eapply only_calls_bind; [apply only_calls_getitem|intros prestazioni _].
      apply only_calls_accept_about. }
    intros _ _.
    eapply emits_only_calls_bind; [apply only_calls_fetch_pic; about_side|].
    intros pic Hpic.
    eapply emits_only_calls_bind.
    { apply only_calls_call. cbn. unfold lookup_result. rewrite Hpic.
      by rewrite bool_decide_eq_true_2. }
    intros _ _.
    eapply emits_only_calls_bind; [apply only_calls_getitem|].
    intros insurance_name _.
    eapply emits_only_calls_bind; [apply only_calls_getitem|].
    intros fiscal_code _.
    eapply emits_only_calls_bind; [apply only_calls_lift|].
    intros error_codes _.
    apply emits_execute_bind. intros r1.
    apply emits_execute_bind. intros r2. apply emits_ret.
  - intros r. apply emits_execute_bind. intros r3. apply emits_ret.
Qed.

Lemma reference_loop_emits E self refs : forall s,
  emits (about_references E refs)
    (for_fold refs (fun s pnr => process_pnr E self (fst s) pnr (snd s)) s).
Proof.
  induction refs as [|r rest IH]; intros s; cbn [for_fold].
  - apply emits_ret.
  - apply emits_bind.
    + eapply emits_mono; [|apply process_pnr_emits].
      intros c Hc. unfold about_references. cbn. by rewrite Hc.
    + intros s'. eapply emits_mono; [|apply IH].
      intros c Hc. unfold about_references in *. cbn. by rewrite Hc, orb_true_r.
Qed.

Lemma only_calls_iterate_refs ok v :
  only_calls ok (iterate v)
    (fun l => v = VList l \/ exists s, v = VStr s /\ l = chars s).
Proof.
  destruct v; cbn; try apply only_calls_raise; apply only_calls_ret; eauto.
Qed.

(** X9.  Every call [process_patient] makes on the webdriver concerns one
    of the record's own references: the page of that reference, the lookup
    keyed by it, the accept-request page with that reference typed in, the
    download of the identifier looked up for it.  It never posts the login
    form and never closes the session. *)
Theorem process_patient_calls_concern_own_references
    (E : Env) (self : ProcessPatients) (pd : pydict) (w : world) :
  exists l,
    calls (snd (process_patient E self pd w)) = calls w ++ l /\
    forallb (about_references E (refs_of pd)) l = true.
Proof.
  assert (H : emits (about_references E (refs_of pd)) (process_patient E self pd)).
  { unfold process_patient.
    eapply emits_only_calls_bind; [apply only_calls_getitem|]. intros birthday _.
    apply emits_bind.
    { destruct birthday; apply emits_raise || apply emits_ret. }
    intros age. apply emits_execute_bind. intros r.
    destruct (Z.ltb 0 (passed (fst r))); [by apply yields_add_patient|].
    eapply emits_only_calls_bind; [apply only_calls_getitem|]. intros v Hv.
    rewrite lookup_insert_ne in Hv by done.
    eapply emits_only_calls_bind; [apply only_calls_iterate_refs|].
    intros refs Hrefs. cbv beta in Hrefs.
    apply emits_bind; [|intros s; by apply yields_add_patient].
    unfold refs_of. rewrite Hv.
    destruct Hrefs as [->|(txt & -> & ->)]; apply reference_loop_emits. }
  destruct (H w) as (o & d & Heq & Hd). rewrite Heq. by exists (calls d).
Qed.

(** ** [process_patient]: the record it hands over *)

Lemma reference_loop_rewrites E self refs : forall pd comments,
  yields (for_fold refs (fun s pnr => process_pnr E self (fst s) pnr (snd s))
            (pd, comments))
    (tracked comments (fun record =>
       forall key, key <> "pnr_status" -> key <> "pic" -> record !! key = pd !! key)).
Proof.
  induction refs as [|r rest IH]; intros pd comments; cbn [for_fold].
  - by apply tracked_ret.
  - eapply tracked_bind; [apply process_pnr_rewrites|].
    intros pd1 c1 [pic ->]. eapply yields_mono; [apply IH|].
    intros o d (Hc & Hd & Hm & Hrest). do 3 (split; [done|]).
    intros record c' Heq. destruct (Hrest record c' Heq) as [-> HR].
    split; [done|]. intros key H1 H2. rewrite (HR key H1 H2).
    by rewrite !lookup_insert_ne.
Qed.

Lemma process_patient_record
    (E : Env) (self : ProcessPatients) (pd : pydict) (w w' : world) :
  process_patient E self pd w = (Ok tt, w') ->
  exists record comment b,
    added w' = added w ++ [(record, comment)] /\
    pd !! "birthday" = Some (VDate b) /\
    record !! "age" = Some (VInt (relativedelta_years E (now E) b)) /\
    forall key, key <> "age" -> key <> "pnr_status" -> key <> "pic" ->
                record !! key = pd !! key.
Proof.
  unfold process_patient, bind at 1, getitem at 1.
  destruct (pd !! "birthday") as [[| | | | |b]|] eqn:Hb; try done.
  cbn [ret]. unfold bind at 1, ret at 1. unfold bind at 1, execute at 1.
  destruct (Z.ltb 0 _).
  - unfold add_patient. intros [= <-]. eexists _, _, b. cbn.
    split; [reflexivity|]. split; [done|]. split.
    + rewrite lookup_insert_ne by done. apply lookup_insert_eq.
    + intros key H1 H2 H3. by rewrite !lookup_insert_ne.
  - unfold bind at 1, getitem at 1. rewrite lookup_insert_ne by done.
    destruct (pd !! "pnr") as [v|]; [|done]. cbn [ret].
    unfold bind at 1.
    destruct (iterate v _) as [[refs|e] w1] eqn:Hit; [|done].
    assert (w1 = log_phase deal_breakers
                   (actions (fst (run_rules (rules_context (config_yaml self) deal_breakers)
                                    (<["age" := VInt (relativedelta_years E (now E) b)]> pd)
                                    {| passed := 0; actions := [] |} []))) w) as ->.
    { destruct v; cbn in Hit; by injection Hit. }
    unfold bind at 1.
    match goal with
    | |- context [for_fold refs ?body ?s ?w0] =>
        destruct (reference_loop_rewrites E self refs (fst s) (snd s) w0)
          as (o & d & Heq & _ & Hd & _ & Hrec)
    end.
    cbn [fst snd] in Heq, Hrec. rewrite Heq.
    destruct o as [[record c']|e]; [|done].
    unfold add_patient. intros [= <-]. exists record, (join " / " c'), b. cbn.
    rewrite Hd, app_nil_r. split; [done|]. split; [done|].
    destruct (Hrec record c' eq_refl) as [_ Hframe]. split.
    + rewrite Hframe by done. apply lookup_insert_eq.
    + intros key H1 H2 H3. rewrite Hframe by done. by rewrite lookup_insert_ne.
Qed.




(** X11.  A patient who passes the gate with an empty list of references
    (or an empty string) is finalized without any call: the record handed
    over is the intake record with its age, so ["pic"] and ["pnr_status"]
    are not written at all and stay whatever the intake held. *)
Theorem process_patient_without_references
    (E : Env) (self : ProcessPatients) (pd : pydict) (b : datetime) (w : world) :
  pd !! "birthday" = Some (VDate b) ->
  passed (fst (gate self (with_age E pd b))) <= 0 ->
  pd !! "pnr" = Some (VList []) \/ pd !! "pnr" = Some (VStr "") ->
  let r := gate self (with_age E pd b) in
  let record := with_age E pd b in
  process_patient E self pd w
    = (Ok tt, log_added record (join " / " (snd r))
                (log_phase deal_breakers (actions (fst r)) w)) /\
  record !! "pic" = pd !! "pic" /\
  record !! "pnr_status" = pd !! "pnr_status".
Proof.
  intros Hb Hgate Hpnr r record. split.
  - unfold process_patient.
    rewrite (bind_ok _ _ _ _ _ (getitem_ok _ _ _ _ Hb)).
    rewrite (bind_ok (ret _) _ _ _ _ eq_refl).
    unfold bind at 1, execute at 1. cbn [fst]. fold (with_age E pd b).
    fold (gate self (with_age E pd b)). fold r.
    assert (Z.ltb 0 (passed (fst r)) = false) as -> by (apply Z.ltb_ge; exact Hgate).
    assert (Hrefs : exists v, with_age E pd b !! "pnr" = Some v /\
                              forall w0, iterate v w0 = (Ok [], w0)).
    { unfold with_age. destruct Hpnr as [H|H]; eexists;
        (split; [by rewrite lookup_insert_ne|done]). }
    destruct Hrefs as (v & Hv & Hit).
    rewrite (bind_ok _ _ _ _ _ (getitem_ok _ _ _ _ Hv)).
    rewrite (bind_ok _ _ _ _ _ (Hit _)).
    cbn [for_fold]. rewrite (bind_ok (ret _) _ _ _ _ eq_refl). reflexivity.
  - unfold record, with_age. by rewrite !lookup_insert_ne.
Qed.

Lemma process_patient_without_references_witness :
  let E := Demo.demo_env [] in
  let r := gate (Demo.demo_self "") (with_age E (Demo.adult []) (mk_datetime 1980 1 1)) in
  let record := with_age E (Demo.adult []) (mk_datetime 1980 1 1) in
  process_patient E (Demo.demo_self "") (Demo.adult []) empty_world
    = (Ok tt, log_added record (join " / " (snd r))
                (log_phase deal_breakers (actions (fst r)) empty_world)) /\
  record !! "pic" = Demo.adult [] !! "pic" /\
  record !! "pnr_status" = Demo.adult [] !! "pnr_status".
Proof.
  apply (process_patient_without_references (Demo.demo_env []) (Demo.demo_self "")
           (Demo.adult []) (mk_datetime 1980 1 1) empty_world).
  - reflexivity.
  - vm_compute. discriminate.
  - left. reflexivity.
Defined.



(** ** [process_patients]: the whole run *)

Lemma parse_yields E self path :
  yields (_parse_input_from_hospital E self path) (fun _ d => d = empty_world).
Proof.
  unfold _parse_input_from_hospital.
  destruct (files E path); [by apply yields_lift|by apply yields_raise].
Qed.

Lemma for_each_patients_spec E self patients :
  yields (for_each patients (process_patient E self)) (fun o d =>
    mails d = 0%nat /\ forallb not_quit (calls d) = true).
Proof.
  induction patients as [|p patients IH]; cbn [for_each].
  - by apply yields_ret.
  - eapply yields_bind; [apply process_patient_spec| |].
    + intros [] d1 (Hc1 & Hm1 & _). eapply yields_mono; [apply IH|].
      cbn. intros o d2 [Hm2 Hc2]. by rewrite forallb_app, Hc1, Hc2, Hm1, Hm2.
    + intros e d1 (Hc1 & Hm1 & _). done.
Qed.

Lemma process_patients_mail E self :
  yields (process_patients E self) (fun o d =>
    mails d = if is_ok o then 1%nat else 0%nat).
Proof.
  unfold process_patients.
  eapply yields_bind; [apply parse_yields| |]; [|by intros e d1 ->].
  intros patients d0 ->.
  eapply yields_bind; [apply only_calls_login| |];
    [|by intros e d1 [(_ & _ & _ & Hm) _]].
  intros reply d1 [(_ & _ & _ & Hm1) _].
  eapply yields_bind; [apply for_each_patients_spec| |];
    [|intros e d2 [Hm2 _]; cbn; by rewrite Hm1, Hm2].
  intros [] d2 [Hm2 _].
  eapply yields_bind
    with (Q := fun _ d => mails d = 0%nat).
  - by apply yields_call.
  - intros [] d3 Hm3. intros w0. eexists _, _.
    split; [unfold send_mail_to_hospital; by rewrite log_mail_app|].
    cbn. by rewrite Hm1, Hm2, Hm3.
  - intros e d3 Hm3. cbn. by rewrite Hm1, Hm2, Hm3.
Qed.

(** X13.  The report is mailed exactly when the run succeeds:
    [process_patients] sends one mail when it returns and none when it
    raises, whatever raised. *)
Theorem mail_sent_exactly_on_success
    (E : Env) (self : ProcessPatients) (w : world) :
  let run := process_patients E self w in
  mails (snd run) = (mails w + if is_ok (fst run) then 1 else 0)%nat.
Proof.
  cbn zeta. destruct (process_patients_mail E self w) as (o & d & Heq & Hd).
  rewrite Heq. cbn. by rewrite Hd.
Qed.

(** X14.  The portal is contacted only after the input file has been
    parsed in full and both credentials found different from the empty
    string: a run that made any call had a file that parsed and such
    credentials. *)
Theorem portal_contacted_only_after_parse_and_credentials
    (E : Env) (self : ProcessPatients) (w : world) :
  calls (snd (process_patients E self w)) <> calls w ->
  (exists patients,
     _parse_input_from_hospital E self (path_file_input self) w = (Ok patients, w)) /\
  username self <> VStr "" /\
  password self <> VStr "".
Proof.
  intros Hcalls.
  destruct (parse_yields E self (path_file_input self) w) as (o & d & Hparse & ->).
  rewrite app_world_empty_r in Hparse.
  destruct o as [patients|e].
  - split; [by exists patients|].
    destruct (decide (username self = VStr "")) as [Hu|Hu];
      [|destruct (decide (password self = VStr "")) as [Hp|Hp]]; [| |done].
    + destruct Hcalls.
      by rewrite (process_patients_rejects_empty_credentials E self w patients
                    (or_introl Hu) Hparse).
    + destruct Hcalls.
      by rewrite (process_patients_rejects_empty_credentials E self w patients
                    (or_intror Hp) Hparse).
  - destruct Hcalls. unfold process_patients.
    by rewrite (bind_raise _ _ _ _ _ Hparse).
Qed.

Lemma portal_contacted_witness :
  (exists patients,
     _parse_input_from_hospital (Demo.demo_env []) (Demo.demo_self "two.csv")
       "two.csv" empty_world = (Ok patients, empty_world)) /\
  VStr "centre" <> VStr "" /\ VStr "secret" <> VStr "".
Proof.
  apply (portal_contacted_only_after_parse_and_credentials (Demo.demo_env [])
           (Demo.demo_self "two.csv") empty_world).
  vm_compute. discriminate.
Defined.

Lemma for_each_patients_records E self patients : forall w1 w2,
  for_each patients (process_patient E self) w1 = (Ok tt, w2) ->
  exists new,
    added w2 = added w1 ++ new /\
    Forall2 (fun p entry =>
               forall key, key <> "age" -> key <> "pnr_status" -> key <> "pic" ->
                           fst entry !! key = p !! key)
            patients new.
Proof.
  induction patients as [|p patients IH]; intros w1 w2 Hrun; cbn in Hrun.
  - injection Hrun as <-. exists []. by rewrite app_nil_r.
  - unfold bind in Hrun.
    destruct (process_patient E self p w1) as [[[]|e] w1'] eqn:Hp; [|done].
    destruct (process_patient_record E self p w1 w1' Hp)
      as (record & comment & b & Hadded & _ & _ & Hframe).
    destruct (IH _ _ Hrun) as (new & Hnew & Hall).
    exists ((record, comment) :: new). rewrite Hnew, Hadded, <- app_assoc.
    split; [done|]. by constructor.
Qed.

(** X15.  A run that returns has handed over one record per parsed
    patient, in the order of the file, each with the intake fields of its
    patient; it has closed the session once, as the last call of the run,
    and sent one mail. *)
Theorem successful_run_records_every_patient
    (E : Env) (self : ProcessPatients) (w w' : world) :
  process_patients E self w = (Ok tt, w') ->
  exists patients new l,
    _parse_input_from_hospital E self (path_file_input self) w = (Ok patients, w) /\
    added w' = added w ++ new /\
    Forall2 (fun p entry =>
               forall key, key <> "age" -> key <> "pnr_status" -> key <> "pic" ->
                           fst entry !! key = p !! key)
            patients new /\
    calls w' = calls w ++ l ++ [Quit] /\
    forallb not_quit l = true /\
    mails w' = S (mails w).
Proof.
  intros Hrun. unfold process_patients in Hrun.
  destruct (parse_yields E self (path_file_input self) w) as (o & d & Hparse & ->).
  rewrite app_world_empty_r in Hparse.
  destruct o as [patients|e]; [|by rewrite (bind_raise _ _ _ _ _ Hparse) in Hrun].
  rewrite (bind_ok _ _ _ _ _ Hparse) in Hrun.
  destruct (only_calls_login E self w) as (o0 & d0 & Hlogin & (Hc0 & _ & Hd0 & Hm0) & _).
  destruct o0 as [reply|e]; [|by rewrite (bind_raise _ _ _ _ _ Hlogin) in Hrun].
  rewrite (bind_ok _ _ _ _ _ Hlogin) in Hrun.
  destruct (for_each patients (process_patient E self) (w ⊕ d0))
    as [[[]|e] w2] eqn:Hloop; [|by rewrite (bind_raise _ _ _ _ _ Hloop) in Hrun].
  rewrite (bind_ok _ _ _ _ _ Hloop) in Hrun.
  destruct (for_each_patients_records E self patients _ _ Hloop) as (new & Hnew & Hall).
  destruct (for_each_patients_ok E self patients _ _ Hloop)
    as (d1 & -> & _ & Hm1 & Hc1).
  unfold bind at 1, webdriver_call at 1 in Hrun.
  destruct (fault (portal E) Quit); [done|].
  unfold send_mail_to_hospital in Hrun. injection Hrun as <-.
  exists patients, new, (calls d0 ++ calls d1). cbn.
  split; [done|]. cbn in Hnew. rewrite Hd0, app_nil_r in Hnew.
  split; [by rewrite Hd0, app_nil_r|]. split; [done|].
  split; [by rewrite !app_assoc|].
  split; [by rewrite forallb_app, Hc0, Hc1|].
  rewrite Hm0, Hm1. lia.
Qed.

Lemma successful_run_witness :
  let E := Demo.demo_env ["Altre prestazioni"] in
  let self := Demo.demo_self "two.csv" in
  let w' := snd (process_patients E self empty_world) in
  exists patients new l,
    _parse_input_from_hospital E self (path_file_input self) empty_world
      = (Ok patients, empty_world) /\
    added w' = added empty_world ++ new /\
    Forall2 (fun p entry =>
               forall key, key <> "age" -> key <> "pnr_status" -> key <> "pic" ->
                           fst entry !! key = p !! key)
            patients new /\
    calls w' = calls empty_world ++ l ++ [Quit] /\
    forallb not_quit l = true /\
    mails w' = S (mails empty_world).
Proof.
  apply (successful_run_records_every_patient (Demo.demo_env ["Altre prestazioni"])
           (Demo.demo_self "two.csv") empty_world).
  vm_compute. reflexivity.
Defined.

(** ** The guarded fetchers *)

(** X16.  [fetch_webpage] and [fetch_and_parse_pic] never raise.  The first
    makes its one request and returns the page text, or [None] when the
    request fails.  The second makes exactly the calls of
    [_fetch_pic_from_database] and returns what that lookup returns, with
    [None] in place of every exception it would raise (a failed request, a
    missing ["Data"], an empty list, a record without ["NumeroAuth"]). *)
Theorem guarded_fetchers_never_raise
    (E : Env) (url pnr : string) (w : world) :
  fetch_webpage E url w
    = (Ok (match fault (portal E) (Get url) with
           | None => VStr (page_text (portal E) url)
           | Some _ => VNone
           end), log_call (Get url) w) /\
  fetch_and_parse_pic E pnr w
    = (Ok (match fst (_fetch_pic_from_database E pnr w) with
           | Ok pic => pic
           | Raise _ => VNone
           end), snd (_fetch_pic_from_database E pnr w)).
Proof.
  split.
  - unfold fetch_webpage, try_except, webdriver_get_text, bind, webdriver_call, ret.
    by destruct (fault (portal E) (Get url)).
  - unfold fetch_and_parse_pic, _fetch_pic_from_database, try_except, webdriver_post,
      bind, webdriver_call, lift, ret.
    destruct (fault (portal E) (Post url_database (pic_payload pnr))); [done|].
    cbn. by destruct (first_numero_auth _).
Qed.

(** ** [_retrieve_pic_from_identify_page] *)

Lemma starts_with_char c s :
  starts_with (String c EmptyString) s = true -> has_char c s = true.
Proof.
  destruct s as [|b s]; cbn; [done|].
  rewrite andb_true_r. intros ->. done.
Qed.

Lemma cut_char c s :
  match cut (String c EmptyString) s with
  | Some (before, _) => has_char c before = false
  | None => has_char c s = false
  end.
Proof.
  induction s as [|b s IH]; [done|].
  cbn [cut]. destruct (starts_with (String c EmptyString) (String b s)) eqn:Hs; [done|].
  cbn in Hs. rewrite andb_true_r in Hs.
  destruct (cut (String c EmptyString) s) as [[before after]|]; cbn; by rewrite Hs.
Qed.

Lemma split_fuel_head_no_char fuel c s :
  has_char c (List.hd EmptyString (split_fuel fuel (String c EmptyString) s)) = true ->
  fuel = O /\ has_char c s = true.
Proof.
  destruct fuel as [|fuel]; cbn; [done|].
  pose proof (cut_char c s) as H.
  destruct (cut (String c EmptyString) s) as [[before after]|]; cbn; congruence.
Qed.

(** X17.  The identifier [_retrieve_pic_from_identify_page] returns never
    contains a double quote, whatever the page. *)
Theorem retrieved_pic_has_no_quote (html_body : string) :
  has_char (ascii_of_nat 34) (_retrieve_pic_from_identify_page html_body) = false.
Proof.
  unfold _retrieve_pic_from_identify_page, split, double_quote.
  set (piece := List.last _ _).
  destruct (has_char _ (List.hd _ _)) eqn:H; [|done].
  apply split_fuel_head_no_char in H as [Hlen Hc].
  by destruct piece.
Qed.

Lemma app_cons c (a b : string) : String c a +:+ b = String c (a +:+ b).
Proof. reflexivity. Qed.

Lemma app_nil (b : string) : EmptyString +:+ b = b.
Proof. reflexivity. Qed.

Lemma string_app_assoc (a b c : string) : (a +:+ b) +:+ c = a +:+ b +:+ c.
Proof.
  induction a as [|x a IH]; [done|]. rewrite !app_cons. by rewrite IH.
Qed.

Lemma length_app (a b : string) :
  String.length (a +:+ b) = (String.length a + String.length b)%nat.
Proof.
  induction a as [|c a IH]; [done|]. rewrite app_cons. cbn. by rewrite IH.
Qed.

Lemma drop_chars_app (a b : string) : drop_chars (String.length a) (a +:+ b) = b.
Proof.
  induction a as [|c a IH]; [rewrite app_nil; by destruct b|].
  rewrite app_cons. exact IH.
Qed.

Lemma starts_with_app_self (sep t : string) : starts_with sep (sep +:+ t) = true.
Proof.
  induction sep as [|c sep IH]; [done|].
  rewrite app_cons. cbn. by rewrite Ascii.eqb_refl, IH.
Qed.

Lemma starts_with_app_drop (x : string) : forall sep y,
  starts_with sep (x +:+ y) = true ->
  (String.length x <= String.length sep)%nat ->
  starts_with (drop_chars (String.length x) sep) y = true.
Proof.
  induction x as [|c x IH]; intros sep y H Hlen.
  - rewrite app_nil in H. by destruct sep.
  - rewrite app_cons in H. destruct sep as [|a sep]; cbn in *; [lia|].
    apply andb_true_iff in H as [_ H]. apply IH; [done|lia].
Qed.

Lemma starts_with_app_l (p : string) : forall s t,
  starts_with p (s +:+ t) = true ->
  (String.length p <= String.length s)%nat ->
  starts_with p s = true.
Proof.
  induction p as [|a p IH]; intros s t H Hlen; [done|].
  destruct s as [|b s]; [cbn in Hlen; lia|].
  rewrite app_cons in H. cbn in *.
  apply andb_true_iff in H as [-> H]. cbn. apply (IH s t); [done|lia].
Qed.

Lemma starts_with_split (p : string) : forall s,
  starts_with p s = true -> s = p +:+ drop_chars (String.length p) s.
Proof.
  induction p as [|a p IH]; intros s H; [by destruct s|].
  destruct s as [|b s]; [done|]. cbn in H.
  apply andb_true_iff in H as [Hab H]. apply Ascii.eqb_eq in Hab as ->.
  rewrite app_cons. cbn [String.length drop_chars]. f_equal. by apply IH.
Qed.

Lemma border_free_spec sep k :
  border_free sep = true ->
  (0 < k < String.length sep)%nat ->
  starts_with (drop_chars k sep) sep = false.
Proof.
  unfold border_free. rewrite forallb_forall. intros H Hk.
  apply negb_true_iff, H, in_seq. lia.
Qed.

Lemma length_drop_chars k : forall s,
  (String.length (drop_chars k s) <= String.length s)%nat.
Proof.
  induction k as [|k IH]; intros s; cbn; [lia|].
  destruct s as [|c s]; cbn; [lia|]. specialize (IH s). lia.
Qed.

Lemma occurs_false_cut sep s : occurs sep s = false -> cut sep s = None.
Proof.
  induction s as [|c s IH]; cbn.
  - rewrite orb_false_r. by intros ->.
  - intros H. apply orb_false_iff in H as [-> H]. by rewrite (IH H).
Qed.

(** Where the first occurrence of a border-free [sep] lies in a text that
    holds one: at the end of [pre], or inside [pre]. *)
Lemma cut_marked sep tail :
  border_free sep = true ->
  forall pre,
    cut sep (pre +:+ sep +:+ tail) = Some (pre, tail) \/
    exists before pre',
      pre = before +:+ sep +:+ pre' /\
      cut sep (pre +:+ sep +:+ tail) = Some (before, pre' +:+ sep +:+ tail).
Proof.
  intros Hbf pre. induction pre as [|c pre IH].
  - left. rewrite app_nil. destruct sep as [|a sep]; [rewrite app_nil; by destruct tail|].
    rewrite app_cons. cbn [cut]. rewrite <- app_cons.
    rewrite (starts_with_app_self (String a sep) tail).
    by rewrite drop_chars_app.
  - rewrite app_cons. cbn [cut]. rewrite <- app_cons.
    destruct (starts_with sep (String c pre +:+ sep +:+ tail)) eqn:Hs.
    + right. exists EmptyString.
      destruct (Nat.le_gt_cases (String.length sep) (String.length (String c pre)))
        as [Hle|Hgt].
      * pose proof (starts_with_app_l _ _ _ Hs Hle) as Hpre.
        apply starts_with_split in Hpre.
        set (rest := drop_chars (String.length sep) (String c pre)) in *.
        exists rest. rewrite app_nil. split; [exact Hpre|].
        by rewrite Hpre, string_app_assoc, drop_chars_app.
      * exfalso.
        apply starts_with_app_drop in Hs; [|lia].
        apply starts_with_app_l in Hs; [|apply length_drop_chars].
        rewrite border_free_spec in Hs; [done|done|]. cbn in *. lia.
    + destruct IH as [->|(before & pre' & -> & ->)]; [by left|].
      right. by exists (String c before), pre'.
Qed.

Lemma split_fuel_not_nil fuel sep s : split_fuel fuel sep s <> [].
Proof.
  destruct fuel as [|fuel]; cbn; [done|].
  by destruct (cut sep s) as [[before after]|].
Qed.

Lemma last_cons_not_nil {A} (x d : A) l : l <> [] -> List.last (x :: l) d = List.last l d.
Proof. by destruct l. Qed.

Lemma split_last_marked sep tail :
  border_free sep = true ->
  sep <> EmptyString ->
  occurs sep tail = false ->
  forall fuel pre,
    (String.length (pre +:+ sep +:+ tail) <= fuel)%nat ->
    List.last (split_fuel fuel sep (pre +:+ sep +:+ tail)) EmptyString = tail.
Proof.
  intros Hbf Hsep Htail.
  assert (Hlen : (1 <= String.length sep)%nat) by (destruct sep; cbn; [done|lia]).
  induction fuel as [|fuel IH]; intros pre Hfuel.
  - rewrite !length_app in Hfuel. lia.
  - cbn [split_fuel].
    destruct (cut_marked sep tail Hbf pre) as [->|(before & pre' & -> & ->)].
    + rewrite last_cons_not_nil by apply split_fuel_not_nil.
      destruct fuel as [|fuel']; cbn [split_fuel]; [done|].
      by rewrite (occurs_false_cut sep tail Htail).
    + rewrite last_cons_not_nil by apply split_fuel_not_nil.
      apply IH. rewrite !length_app in *. lia.
Qed.

Lemma cut_char_first c pic rest :
  has_char c pic = false ->
  cut (String c EmptyString) (pic +:+ String c EmptyString +:+ rest) = Some (pic, rest).
Proof.
  induction pic as [|b pic IH]; intros H.
  - rewrite app_nil, app_cons, app_nil. cbn. by rewrite Ascii.eqb_refl.
  - cbn in H. apply orb_false_iff in H as [Hb H].
    rewrite app_cons. cbn [cut starts_with]. rewrite Hb. cbn. by rewrite (IH H).
Qed.

(** X18.  On a page that holds the link to the authorizations list,
    [_retrieve_pic_from_identify_page] returns its target: whatever comes
    before the last occurrence of the marker, the result is the text between
    that marker and the next double quote. *)
Theorem retrieved_pic_is_the_link_target (pre pic rest : string) :
  occurs marker_pic (pic +:+ double_quote +:+ rest) = false ->
  has_char (ascii_of_nat 34) pic = false ->
  _retrieve_pic_from_identify_page
    (pre +:+ marker_pic +:+ pic +:+ double_quote +:+ rest) = pic.
Proof.
  intros Hlast Hpic. unfold _retrieve_pic_from_identify_page, split at 2.
  rewrite (split_last_marked marker_pic (pic +:+ double_quote +:+ rest));
    [|by vm_compute|done|done|done].
  unfold split, double_quote in *.
  destruct (String.length _) as [|n] eqn:Hn.
  - rewrite !length_app in Hn. cbn in Hn. lia.
  - cbn [split_fuel]. by rewrite (cut_char_first _ pic rest Hpic).
Qed.

Lemma retrieved_pic_witness :
  _retrieve_pic_from_identify_page
    (("<a href=" +:+ double_quote +:+ "/CentriDiagnostici/")
       +:+ marker_pic +:+ "PIC-77" +:+ double_quote +:+ ">Autorizzazioni</a>")
  = "PIC-77".
Proof.
  apply (retrieved_pic_is_the_link_target
           ("<a href=" +:+ double_quote +:+ "/CentriDiagnostici/")
           "PIC-77" ">Autorizzazioni</a>").
  - vm_compute. reflexivity.
  - vm_compute. reflexivity.
Defined.

Lemma cut_char_absent c s :
  has_char c s = false -> cut (String c EmptyString) s = None.
Proof.
  induction s as [|b s IH]; intros H; [done|].
  cbn in H. apply orb_false_iff in H as [Hb H].
  cbn [cut starts_with]. rewrite Hb. cbn. by rewrite (IH H).
Qed.

(** X19.  On a page without the marker the function does not fail: it
    returns the page up to its first double quote, and the whole page when
    it holds no double quote either. *)
Theorem retrieved_pic_without_link (html_body : string) :
  occurs marker_pic html_body = false ->
  _retrieve_pic_from_identify_page html_body
    = List.hd EmptyString (split double_quote html_body) /\
  (has_char (ascii_of_nat 34) html_body = false ->
   _retrieve_pic_from_identify_page html_body = html_body).
Proof.
  intros Hno.
  assert (Hpiece : List.last (split marker_pic html_body) EmptyString = html_body).
  { unfold split. destruct (String.length html_body); cbn [split_fuel]; [done|].
    by rewrite (occurs_false_cut _ _ Hno). }
  unfold _retrieve_pic_from_identify_page. rewrite Hpiece. split; [done|].
  intros Hq. unfold split, double_quote.
  destruct (String.length html_body); cbn [split_fuel]; [done|].
  by rewrite (cut_char_absent _ _ Hq).
Qed.

Lemma retrieved_pic_without_link_witness :
  _retrieve_pic_from_identify_page "Sessione scaduta" = "Sessione scaduta".
Proof.
  apply (retrieved_pic_without_link "Sessione scaduta"); vm_compute; reflexivity.
Defined.

(** ** [load_yaml_config] *)


